(** * Recitation validation and session statistics of the Quran mobile app

    A shallow embedding of
    - [src/services/QuranDatabase.ts]: [removeDiacritics],
      [calculateSimilarity], [getVerse], [validateRecitation];
    - [src/context/BikeModeContext.tsx]: [startSession], [endSession];
    - [src/screens/ProgressScreen.tsx]: [getFilteredSessions], [getStats],
      [getAchievements], [formatDuration];
    - [src/utils/constants.ts]: [formatDuration], [clamp],
      [levenshteinDistance], [calculateSimilarity].

    Conventions of the embedding.
    - A JavaScript string is the list of its UTF-16 code units ([list N]);
      [length] is the [.length] of the source and [s !! i] is [s[i]].
    - A JavaScript number that the code only ever uses as a count, an index
      or a millisecond time stamp is a [Z]; a number obtained by a division
      of two such numbers is the rational quotient ([Q]), of which the
      double of the source is the rounding, and the literals 0.7, 0.3 and
      0.9 are 7/10, 3/10 and 9/10; the non-finite results of a division by
      zero are the constructors [Infinity] and [NaN] of [number].  Where
      the code adds numbers that need not be integers (the accuracies that
      [getStats] averages), the numbers are IEEE doubles ([float]) and the
      arithmetic is the one of the doubles.
    - A [Date] is its time value, a [Z] of milliseconds since the epoch.
      Local time is read through the time zone of the device, given by the
      two offset functions of ECMAScript's [LocalTime] and [UTC].
    - [Map<string, VerseInfo>] is a [gmap] keyed by JavaScript strings. *)

From Stdlib Require Import ZArith QArith Qround Lia Lqa List Sorting.Sorted.
From Stdlib Require Import Strings.Ascii Strings.String QArith.Qminmax.
From Stdlib Require Import Floats Uint63.
From stdpp Require Import base decidable option numbers list gmap pretty strings.

Local Open Scope Z_scope.

(** ** JavaScript strings *)

Module JsString.

Abbreviation jsstring := (list N).

(** Code units of an ASCII literal of the source. *)
Definition lit (s : string) : jsstring :=
  (fun a => N_of_ascii a) <$> String.list_ascii_of_string s.

(** Template-literal conversion of an integer-valued number: its decimal
    digits, after a minus sign when it is negative. *)
Definition ofInt (z : Z) : jsstring := lit (pretty z).

(** The class [\s] of ECMAScript regular expressions: WhiteSpace and
    LineTerminator code points. *)
Definition isWhiteSpace (c : N) : bool :=
  ((9 <=? c) && (c <=? 13) || (c =? 32) || (c =? 0xA0) || (c =? 0x1680)
   || (0x2000 <=? c) && (c <=? 0x200A) || (c =? 0x2028) || (c =? 0x2029)
   || (c =? 0x202F) || (c =? 0x205F) || (c =? 0x3000) || (c =? 0xFEFF))%N.

(** [text.split(/\s+/)].  [cur] is the piece being read (reversed), [inSep]
    tells that the previous code unit belonged to a separator match, so a
    maximal run of white space ends exactly one piece.  The piece left at
    the end of the text is always pushed, as [split] does. *)
Fixpoint splitLoop (text : jsstring) (cur : jsstring) (inSep : bool)
  : list jsstring :=
  match text with
  | [] => [rev cur]
  | c :: rest =>
      if isWhiteSpace c then
        if inSep then splitLoop rest cur true
        else rev cur :: splitLoop rest [] true
      else splitLoop rest (c :: cur) false
  end.

Definition splitWhiteSpace (text : jsstring) : list jsstring :=
  splitLoop text [] false.

End JsString.

Import JsString.

(** ** JavaScript numbers that are not integers *)

Module JsNumber.

(** The rational that a finite double stands for, in lowest terms; none
    for NaN and the infinities. *)
Definition exactValue (x : float) : option Q :=
  match Prim2SF x with
  | S754_zero _ => Some 0%Q
  | S754_finite negative mantissa exponent =>
      Some (Qred ((if negative then -1 else 1) * inject_Z (Z.pos mantissa)
                  * Qpower 2 exponent))%Q
  | _ => None
  end.

(** The integer nearest to a rational, a tie going up. *)
Definition nearest (q : Q) : Z := Qfloor (q + (1 # 2)).

(** The result of [Math.round]: an integer-valued double, given by its
    integer (the sign of a zero is not kept), or the argument itself when it
    is NaN or infinite. *)
Inductive rounded := Integer (z : Z) | Unrounded (x : float).

(** [Math.round(x)] *)
Definition mathRound (x : float) : rounded :=
  match exactValue x with
  | Some q => Integer (nearest q)
  | None => Unrounded x
  end.

(** [value >= bound] for the result of [Math.round] and an integer literal:
    of the values that are not finite only the positive infinity passes. *)
Definition atLeast (value : rounded) (bound : Z) : bool :=
  match value with
  | Integer z => bound <=? z
  | Unrounded x => PrimFloat.ltb 0 x
  end.

(** The [.length] of an array as an operand of [/]: exact, an array holding
    fewer than 2^32 elements. *)
Definition ofLength (n : nat) : float :=
  PrimFloat.of_uint63 (Uint63.of_Z (Z.of_nat n)).

End JsNumber.

Import JsNumber.

(** ** QuranDatabase.ts *)

Module QuranDatabase.

Record VerseInfo := {
  textArabic : jsstring;
  textTransliteration : jsstring;
  textEnglish : jsstring;
  words : list jsstring;
  wordCount : Z;
}.

Inductive MistakeType := pronunciation | omission | addition.
Inductive Severity := low | medium | high.

Record MistakeInfo := {
  type : MistakeType;
  expected : option jsstring;
  recited : option jsstring;
  position : Z;
  severity : Severity;
}.

(** The value of a JavaScript number expression that contains a division:
    a rational, or one of the non-finite values a zero divisor yields. *)
Inductive number := Finite (q : Q) | Infinity (negative : bool) | NaN.

(** [a / b] on integer-valued operands. *)
Definition divide (a b : Z) : number :=
  if decide (b = 0) then
    if decide (a = 0) then NaN else Infinity (bool_decide (a < 0))
  else Finite (inject_Z a / inject_Z b).

(** [x * k] for a positive integer literal [k]. *)
Definition times (x : number) (k : Z) : number :=
  match x with
  | Finite q => Finite (q * inject_Z k)
  | other => other
  end.

(** [x >= k] for an integer literal [k]; comparisons with NaN are false. *)
Definition geq (x : number) (k : Z) : bool :=
  match x with
  | Finite q => Qle_bool (inject_Z k) q
  | Infinity negative => negb negative
  | NaN => false
  end.

Record ValidationResult := {
  isValid : bool;
  accuracy : number;
  mistakes : list MistakeInfo;
  missingWords : list jsstring;
  extraWords : list jsstring;
}.

#[export] Instance MistakeType_eq_dec : EqDecision MistakeType.
Proof. solve_decision. Defined.

(** The array literal of [removeDiacritics], in source order. *)
Definition diacritics : list N :=
  [0x64E; 0x64F; 0x650; 0x64B; 0x64C; 0x64D; 0x652; 0x651; 0x670;
   0x656; 0x657; 0x659; 0x65A; 0x65B; 0x65C; 0x65D; 0x65E; 0x65F]%N.

(** [result.replace(new RegExp(diacritic, 'g'), '')]: every pattern is one
    code unit and none is a regular-expression metacharacter, so the global
    replacement deletes each occurrence of that code unit. *)
Definition replaceAll (diacritic : N) (result : jsstring) : jsstring :=
  filter (fun c => c ≠ diacritic) result.

Definition removeDiacritics (text : jsstring) : jsstring :=
  fold_left (fun result diacritic => replaceAll diacritic result)
            diacritics text.

(** The loop [for (let i = 0; i < minLen; i++)] of [calculateSimilarity]. *)
Definition countMatches (clean1 clean2 : jsstring) (minLen : nat) : Z :=
  fold_left
    (fun matches i =>
       if decide (clean1 !! i = clean2 !! i) then matches + 1 else matches)
    (seq 0 minLen) 0.

Definition calculateSimilarity (word1 word2 : jsstring) : Q :=
  if decide (word1 = word2) then 1
  else
    let clean1 := removeDiacritics word1 in
    let clean2 := removeDiacritics word2 in
    if decide (clean1 = clean2) then 9 # 10
    else
      let maxLen := Nat.max (length clean1) (length clean2) in
      if decide (maxLen = 0%nat) then 0
      else
        let minLen := Nat.min (length clean1) (length clean2) in
        let matches := countMatches clean1 clean2 minLen in
        inject_Z matches / inject_Z (Z.of_nat maxLen).

(** The class fields that the validator reads. *)
Record QuranDatabaseClass := {
  verses : gmap jsstring VerseInfo;
}.

(** [`${surahNumber}:${verseNumber}`] *)
Definition verseKey (surahNumber verseNumber : Z) : jsstring :=
  ofInt surahNumber ++ lit ":" ++ ofInt verseNumber.

(** [this.verses.get(key) || null]: a stored [VerseInfo] is an object, hence
    truthy, so the result is null exactly when the key is absent. *)
Definition getVerse (this : QuranDatabaseClass)
    (surahNumber verseNumber : Z) : option VerseInfo :=
  verses this !! verseKey surahNumber verseNumber.

(** One call of the callback of [expectedWords.forEach]; the two arrays the
    callback pushes onto are threaded through. *)
Definition checkWord (recitedWords : list jsstring)
    (acc : list MistakeInfo * list jsstring)
    (expectedWord : jsstring) (index : nat)
  : list MistakeInfo * list jsstring :=
  let '(mistakes, missingWords) := acc in
  if decide (length recitedWords ≤ index)%nat then
    (mistakes ++ [ {| type := omission; expected := Some expectedWord;
                      recited := None; position := Z.of_nat index;
                      severity := high |} ],
     missingWords ++ [expectedWord])
  else
    let recitedWord := recitedWords !!! index in
    let similarity := calculateSimilarity expectedWord recitedWord in
    if Qlt_le_dec similarity (7 # 10) then
      (mistakes ++ [ {| type := pronunciation; expected := Some expectedWord;
                        recited := Some recitedWord;
                        position := Z.of_nat index;
                        severity := if Qlt_le_dec similarity (3 # 10)
                                    then high else medium |} ],
       missingWords)
    else (mistakes, missingWords).

(** [expectedWords.forEach((expectedWord, index) => ...)], from [index]. *)
Fixpoint forEachWord (recitedWords : list jsstring) (index : nat)
    (expectedWords : list jsstring)
    (acc : list MistakeInfo * list jsstring)
  : list MistakeInfo * list jsstring :=
  match expectedWords with
  | [] => acc
  | expectedWord :: rest =>
      forEachWord recitedWords (S index) rest
                  (checkWord recitedWords acc expectedWord index)
  end.

(** [recitedText.split(/\s+/).filter(word => word.length > 0)] *)
Definition splitWords (recitedText : jsstring) : list jsstring :=
  filter (fun word => (0 < length word)%nat) (splitWhiteSpace recitedText).

(** The body of [validateRecitation] once the verse has been found. *)
Definition validateWords (expectedWords recitedWords : list jsstring)
  : ValidationResult :=
  let '(mistakes0, missingWords) :=
    forEachWord recitedWords 0 expectedWords ([], []) in
  let '(mistakes, extraWords) :=
    if decide (length expectedWords < length recitedWords)%nat then
      (mistakes0 ++ [ {| type := addition; expected := None;
                         recited := None;
                         position := Z.of_nat (length expectedWords);
                         severity := medium |} ],
       drop (length expectedWords) recitedWords)
    else (mistakes0, []) in
  let correctWords :=
    Z.of_nat (length expectedWords) - Z.of_nat (length missingWords)
    - Z.of_nat (length (filter (fun m => type m = pronunciation)
                               mistakes)) in
  let accuracy :=
    times (divide correctWords (Z.of_nat (length expectedWords))) 100 in
  {| isValid := geq accuracy 70; accuracy := accuracy;
     mistakes := mistakes; missingWords := missingWords;
     extraWords := extraWords |}.

Definition validateRecitation (this : QuranDatabaseClass)
    (surahNumber verseNumber : Z) (recitedText : jsstring)
  : ValidationResult :=
  match getVerse this surahNumber verseNumber with
  | None =>
      {| isValid := false; accuracy := Finite 0; mistakes := [];
         missingWords := []; extraWords := [] |}
  | Some expectedVerse =>
      validateWords (words expectedVerse) (splitWords recitedText)
  end.

End QuranDatabase.

Import QuranDatabase.

(** ** BikeModeContext.tsx *)

Module BikeModeContext.

(** A [Date] is its time value, in milliseconds since the epoch. *)
Record BikeModeSession := {
  id : jsstring;
  startTime : Z;
  endTime : option Z;
  versesRecited : Z;
  pausesDetected : Z;
  mistakesDetected : Z;
  totalDuration : Z;
  averageAccuracy : float;
  surahsCompleted : list Z;
}.

(** The pieces of React state of [BikeModeProvider] that the session
    functions read and set. *)
Record ProviderState := {
  bikeMode : bool;
  currentSession : option BikeModeSession;
  sessionHistory : list BikeModeSession;
}.

Definition initialState : ProviderState :=
  {| bikeMode := false; currentSession := None; sessionHistory := [] |}.

(** [msNow] is the value of [Date.now()], [dateNow] that of [new Date()]. *)
Definition startSession (msNow dateNow : Z) (st : ProviderState)
  : ProviderState :=
  let newSession :=
    {| id := ofInt msNow; startTime := dateNow; endTime := None;
       versesRecited := 0; pausesDetected := 0; mistakesDetected := 0;
       totalDuration := 0; averageAccuracy := 0%float;
       surahsCompleted := [] |} in
  {| bikeMode := bikeMode st; currentSession := Some newSession;
     sessionHistory := sessionHistory st |}.

(** The object literal [endedSession]. *)
Definition endedSession (dateNow msNow : Z) (currentSession : BikeModeSession)
  : BikeModeSession :=
  {| id := id currentSession;
     startTime := startTime currentSession;
     endTime := Some dateNow;
     versesRecited := versesRecited currentSession;
     pausesDetected := pausesDetected currentSession;
     mistakesDetected := mistakesDetected currentSession;
     totalDuration :=
       match endTime currentSession with
       | Some t => t - startTime currentSession
       | None => msNow - startTime currentSession
       end;
     averageAccuracy := averageAccuracy currentSession;
     surahsCompleted := surahsCompleted currentSession |}.

(** [[endedSession, ...sessionHistory].slice(0, 50)] *)
Definition endSession (dateNow msNow : Z) (st : ProviderState)
  : ProviderState :=
  match currentSession st with
  | Some current =>
      let updatedHistory :=
        take 50 (endedSession dateNow msNow current :: sessionHistory st) in
      {| bikeMode := bikeMode st; currentSession := None;
         sessionHistory := updatedHistory |}
  | None => st
  end.

Definition clearSessionHistory (st : ProviderState) : ProviderState :=
  {| bikeMode := bikeMode st; currentSession := currentSession st;
     sessionHistory := [] |}.

(** The calls a consumer of the context can make on the session state. *)
Inductive Call :=
| CallStartSession (msNow dateNow : Z)
| CallEndSession (dateNow msNow : Z)
| CallClearSessionHistory.

Definition call (st : ProviderState) (c : Call) : ProviderState :=
  match c with
  | CallStartSession msNow dateNow => startSession msNow dateNow st
  | CallEndSession dateNow msNow => endSession dateNow msNow st
  | CallClearSessionHistory => clearSessionHistory st
  end.

Definition run (calls : list Call) : ProviderState :=
  fold_left call calls initialState.

End BikeModeContext.

(** ** ProgressScreen.tsx *)

Module ProgressScreen.

Import BikeModeContext.

Inductive Period := week | month | all.

Record Stats := {
  totalSessions : Z;
  totalTime : Z;
  totalVerses : Z;
  averageAccuracy : rounded;
  totalMistakes : Z;
  totalPauses : Z;
  streakDays : Z;
}.

Definition msPerDay : Z := 1000 * 60 * 60 * 24.

(** The callback of [sessionHistory.filter]. *)
Definition inPeriod (now : Z) (selectedPeriod : Period)
    (session : BikeModeSession) : bool :=
  match selectedPeriod with
  | all => true
  | _ =>
      let sessionDate := startTime session in
      let daysDiff := (inject_Z (now - sessionDate) / inject_Z msPerDay)%Q in
      match selectedPeriod with
      | week => Qle_bool daysDiff 7
      | month => Qle_bool daysDiff 30
      | all => true
      end
  end.

Definition getFilteredSessions (now : Z) (selectedPeriod : Period)
    (sessionHistory : list BikeModeSession) : list BikeModeSession :=
  filter (fun session => inPeriod now selectedPeriod session) sessionHistory.

(** [Array.prototype.sort] with a consistent comparator: the stable sort. *)
Fixpoint insertSorted {A} (compareFn : A -> A -> Z) (x : A) (l : list A)
  : list A :=
  match l with
  | [] => [x]
  | y :: l' =>
      if compareFn x y <=? 0 then x :: l
      else y :: insertSorted compareFn x l'
  end.

Definition sort {A} (compareFn : A -> A -> Z) (l : list A) : list A :=
  foldr (insertSorted compareFn) [] l.

(** The time zone of the device, as ECMAScript reads it: [offsetAtUTC t] is
    the offset of local time from UTC at the instant [t]
    ([LocalTZA(t, true)]), [offsetAtLocal tlocal] the offset by which the
    local time value [tlocal] is read ([LocalTZA(tlocal, false)]: a local
    time that a clock change skips or repeats is read with the offset in
    force before the change). *)
Record TimeZone := {
  offsetAtUTC : Z -> Z;
  offsetAtLocal : Z -> Z;
}.

(** A zone whose clocks never change. *)
Definition fixedOffset (tz : Z) : TimeZone :=
  {| offsetAtUTC := fun _ => tz; offsetAtLocal := fun _ => tz |}.

Section LocalTime.

Variable zone : TimeZone.

(** ECMAScript's [LocalTime(t)] and [UTC(tlocal)]. *)
Definition LocalTime (t : Z) : Z := t + offsetAtUTC zone t.
Definition UTC (tlocal : Z) : Z := tlocal - offsetAtLocal zone tlocal.

(** [date.setHours(0, 0, 0, 0)]: the local day of [date] at time 0 of the
    day, read back as an instant. *)
Definition setHoursZero (date : Z) : Z :=
  let tlocal := LocalTime date in
  UTC (tlocal - tlocal mod msPerDay).

(** [currentDate.setDate(currentDate.getDate() - 1)]: the same local time
    of day one calendar day earlier, read back as an instant. *)
Definition setDatePrevious (currentDate : Z) : Z :=
  UTC (LocalTime currentDate - msPerDay).

(** The loop [for (const session of sortedSessions)]; [break] returns. *)
Fixpoint streakLoop (sortedSessions : list BikeModeSession)
    (streakDays currentDate : Z) : Z :=
  match sortedSessions with
  | [] => streakDays
  | session :: rest =>
      let sessionDate := setHoursZero (startTime session) in
      if sessionDate =? currentDate then
        streakLoop rest (streakDays + 1) (setDatePrevious currentDate)
      else if sessionDate <? currentDate then streakDays
      else streakLoop rest streakDays currentDate
  end.

(** The constant [averageAccuracy] of [getStats]: the accuracies added in
    list order to 0, and the sum divided by the number of sessions, in
    double arithmetic. *)
Definition meanAccuracy (sessions : list BikeModeSession) : float :=
  (fold_left
     (fun sum session => sum + BikeModeContext.averageAccuracy session)
     sessions 0
   / ofLength (length sessions))%float.

(** [filterNow] is the clock read by [getFilteredSessions], [streakNow]
    the one read when the streak is computed. *)
Definition getStats (filterNow streakNow : Z) (selectedPeriod : Period)
    (sessionHistory : list BikeModeSession) : Stats :=
  let sessions :=
    getFilteredSessions filterNow selectedPeriod sessionHistory in
  if decide (length sessions = 0%nat) then
    {| totalSessions := 0; totalTime := 0; totalVerses := 0;
       averageAccuracy := Integer 0; totalMistakes := 0; totalPauses := 0;
       streakDays := 0 |}
  else
    let totalTime :=
      fold_left (fun sum session => sum + totalDuration session)
                sessions 0 in
    let totalVerses :=
      fold_left (fun sum session => sum + versesRecited session)
                sessions 0 in
    let totalMistakes :=
      fold_left (fun sum session => sum + mistakesDetected session)
                sessions 0 in
    let totalPauses :=
      fold_left (fun sum session => sum + pausesDetected session)
                sessions 0 in
    let averageAccuracy := meanAccuracy sessions in
    let sortedSessions :=
      sort (fun a b => startTime b - startTime a) sessions in
    let streakDays :=
      streakLoop sortedSessions 0 (setHoursZero streakNow) in
    {| totalSessions := Z.of_nat (length sessions);
       totalTime := totalTime;
       totalVerses := totalVerses;
       averageAccuracy := mathRound averageAccuracy;
       totalMistakes := totalMistakes;
       totalPauses := totalPauses;
       streakDays := streakDays |}.

End LocalTime.

End ProgressScreen.

(** ** QuranDatabase.ts: chapters and navigation *)

Module Navigation.

Inductive RevelationType := Meccan | Medinan.

Record SurahInfo := {
  number : Z;
  nameArabic : jsstring;
  nameEnglish : jsstring;
  nameTransliteration : jsstring;
  totalVerses : Z;
  revelationType : RevelationType;
  revelationOrder : Z;
  description : jsstring;
}.

(** The object [{ surah, verse }] that the navigation functions return. *)
Record VerseRef := { surah : Z; verse : Z }.

(** [this.surahs.get(surahNumber) || null], on the field
    [surahs : Map<number, SurahInfo>] of the class. *)
Definition getSurahInfo (surahs : gmap Z SurahInfo) (surahNumber : Z)
  : option SurahInfo :=
  surahs !! surahNumber.

Definition getVerseWords (this : QuranDatabaseClass)
    (surahNumber verseNumber : Z) : list jsstring :=
  match getVerse this surahNumber verseNumber with
  | Some verse => words verse
  | None => []
  end.

Definition getNextVerse (surahs : gmap Z SurahInfo)
    (surahNumber verseNumber : Z) : option VerseRef :=
  match getSurahInfo surahs surahNumber with
  | None => None
  | Some surahInfo =>
      if decide (verseNumber < totalVerses surahInfo) then
        Some {| surah := surahNumber; verse := verseNumber + 1 |}
      else
        let nextSurah := surahNumber + 1 in
        if decide (nextSurah <= 114) then
          Some {| surah := nextSurah; verse := 1 |}
        else None
  end.

Definition getPreviousVerse (surahs : gmap Z SurahInfo)
    (surahNumber verseNumber : Z) : option VerseRef :=
  if decide (verseNumber > 1) then
    Some {| surah := surahNumber; verse := verseNumber - 1 |}
  else
    let prevSurah := surahNumber - 1 in
    if decide (prevSurah >= 1) then
      match getSurahInfo surahs prevSurah with
      | Some prevSurahInfo =>
          Some {| surah := prevSurah; verse := totalVerses prevSurahInfo |}
      | None => None
      end
    else None.

(** The loop [for (let i = 1; i <= surahInfo.totalVerses; i++)] pushes the
    verses that [getVerse] finds. *)
Definition getSurahVerses (this : QuranDatabaseClass)
    (surahs : gmap Z SurahInfo) (surahNumber : Z) : list VerseInfo :=
  match getSurahInfo surahs surahNumber with
  | Some surahInfo =>
      fold_left
        (fun verses i =>
           match getVerse this surahNumber i with
           | Some verse => verses ++ [verse]
           | None => verses
           end)
        (seqZ 1 (totalVerses surahInfo)) []
  | None => []
  end.

End Navigation.

(** ** BikeModeContext.tsx: updates and bike mode *)

Module SessionUpdates.

Import BikeModeContext.

(** [Partial<BikeModeSession>]: a field is [Some] when the key is present. *)
Record Partial := {
  id : option jsstring;
  startTime : option Z;
  endTime : option (option Z);
  versesRecited : option Z;
  pausesDetected : option Z;
  mistakesDetected : option Z;
  totalDuration : option Z;
  averageAccuracy : option float;
  surahsCompleted : option (list Z);
}.

(** [{ ...prev, ...updates }] *)
Definition spread (prev : BikeModeSession) (updates : Partial)
  : BikeModeSession :=
  {| BikeModeContext.id := default (BikeModeContext.id prev) (id updates);
     BikeModeContext.startTime :=
       default (BikeModeContext.startTime prev) (startTime updates);
     BikeModeContext.endTime :=
       default (BikeModeContext.endTime prev) (endTime updates);
     BikeModeContext.versesRecited :=
       default (BikeModeContext.versesRecited prev) (versesRecited updates);
     BikeModeContext.pausesDetected :=
       default (BikeModeContext.pausesDetected prev) (pausesDetected updates);
     BikeModeContext.mistakesDetected :=
       default (BikeModeContext.mistakesDetected prev)
               (mistakesDetected updates);
     BikeModeContext.totalDuration :=
       default (BikeModeContext.totalDuration prev) (totalDuration updates);
     BikeModeContext.averageAccuracy :=
       default (BikeModeContext.averageAccuracy prev)
               (averageAccuracy updates);
     BikeModeContext.surahsCompleted :=
       default (BikeModeContext.surahsCompleted prev)
               (surahsCompleted updates) |}.

Definition updateSession (updates : Partial) (st : ProviderState)
  : ProviderState :=
  match currentSession st with
  | Some prev =>
      {| bikeMode := bikeMode st;
         currentSession := Some (spread prev updates);
         sessionHistory := sessionHistory st |}
  | None => st
  end.

(** [setBikeModeState(enabled)], then [endSession()] when bike mode is
    switched off while a session is open. *)
Definition setBikeMode (dateNow msNow : Z) (enabled : bool)
    (st : ProviderState) : ProviderState :=
  let st' := {| bikeMode := enabled; currentSession := currentSession st;
                sessionHistory := sessionHistory st |} in
  if negb enabled && bool_decide (is_Some (currentSession st))
  then endSession dateNow msNow st'
  else st'.

(** [endSession] as a function of the state it reads and of the state it
    writes.  The function is a closure of one render: [currentSession] and
    [sessionHistory] are the values of that render ([render]), whatever
    earlier calls of the same render have already set ([pending]); the
    setters replace the pending values. *)
Definition endSessionFrom (dateNow msNow : Z)
    (render pending : ProviderState) : ProviderState :=
  match currentSession render with
  | Some current =>
      let updatedHistory :=
        take 50 (endedSession dateNow msNow current
                 :: sessionHistory render) in
      {| bikeMode := bikeMode pending; currentSession := None;
         sessionHistory := updatedHistory |}
  | None => pending
  end.

(** Every function of the context value that acts on the session state. *)
Inductive Action :=
| SetBikeMode (dateNow msNow : Z) (enabled : bool)
| StartSession (msNow dateNow : Z)
| EndSession (dateNow msNow : Z)
| UpdateSession (updates : Partial)
| ClearSessionHistory.

Definition act (st : ProviderState) (a : Action) : ProviderState :=
  match a with
  | SetBikeMode dateNow msNow enabled => setBikeMode dateNow msNow enabled st
  | StartSession msNow dateNow => startSession msNow dateNow st
  | EndSession dateNow msNow => endSession dateNow msNow st
  | UpdateSession updates => updateSession updates st
  | ClearSessionHistory => clearSessionHistory st
  end.

Definition runActions (actions : list Action) : ProviderState :=
  fold_left act actions initialState.

End SessionUpdates.

(** ** ProgressScreen.tsx: durations and achievements *)

Module ProgressDisplay.

Import BikeModeContext ProgressScreen.

(** [formatDuration] of the screen.  [Math.floor] of a quotient is [Z.div],
    the operator [%] is [Z.rem]. *)
Definition formatDuration (milliseconds : Z) : jsstring :=
  let hours := milliseconds / (1000 * 60 * 60) in
  let minutes := Z.rem milliseconds (1000 * 60 * 60) / (1000 * 60) in
  if decide (hours > 0) then
    ofInt hours ++ lit "h " ++ ofInt minutes ++ lit "m"
  else ofInt minutes ++ lit "m".

Record Achievement := {
  icon : jsstring;
  title : jsstring;
  description : jsstring;
}.

Definition firstSession : Achievement :=
  {| icon := lit "star"; title := lit "First Session";
     description := lit "Completed your first recitation session" |}.
Definition dedicatedLearner : Achievement :=
  {| icon := lit "star"; title := lit "Dedicated Learner";
     description := lit "Completed 10 recitation sessions" |}.
Definition verseMaster : Achievement :=
  {| icon := lit "star"; title := lit "Verse Master";
     description := lit "Recited 100 verses" |}.
Definition weekWarrior : Achievement :=
  {| icon := lit "star"; title := lit "Week Warrior";
     description := lit "7-day recitation streak" |}.
Definition accuracyExpert : Achievement :=
  {| icon := lit "star"; title := lit "Accuracy Expert";
     description := lit "90%+ average accuracy" |}.

(** [if (condition) achievements.push(achievement)] *)
Definition pushIf (condition : bool) (achievement : Achievement)
    (achievements : list Achievement) : list Achievement :=
  if condition then achievements ++ [achievement] else achievements.

(** The body of [getAchievements] on the statistics it has computed. *)
Definition achievementsOf (stats : Stats) : list Achievement :=
  let achievements := [] in
  let achievements :=
    pushIf (1 <=? totalSessions stats) firstSession achievements in
  let achievements :=
    pushIf (10 <=? totalSessions stats) dedicatedLearner achievements in
  let achievements :=
    pushIf (100 <=? totalVerses stats) verseMaster achievements in
  let achievements :=
    pushIf (7 <=? streakDays stats) weekWarrior achievements in
  let achievements :=
    pushIf (atLeast (averageAccuracy stats) 90) accuracyExpert
           achievements in
  achievements.

Definition getAchievements (zone : TimeZone) (filterNow streakNow : Z)
    (selectedPeriod : Period) (sessionHistory : list BikeModeSession)
  : list Achievement :=
  achievementsOf
    (getStats zone filterNow streakNow selectedPeriod sessionHistory).

End ProgressDisplay.

(** ** utils/constants.ts: helper functions *)

Module Helpers.

(** [formatDuration] of the helpers, with seconds. *)
Definition formatDuration (milliseconds : Z) : jsstring :=
  let seconds := milliseconds / 1000 in
  let minutes := seconds / 60 in
  let hours := minutes / 60 in
  if decide (hours > 0) then
    ofInt hours ++ lit "h " ++ ofInt (Z.rem minutes 60) ++ lit "m"
  else if decide (minutes > 0) then
    ofInt minutes ++ lit "m " ++ ofInt (Z.rem seconds 60) ++ lit "s"
  else ofInt seconds ++ lit "s".


(** The matrix of [levenshteinDistance]: an array of rows, a cell holding
    [null] until it is assigned. *)
Abbreviation Matrix := (list (list (option Z))).

(** [matrix[j][i] = v]; every assignment of the function is in range. *)
Definition setCell (matrix : Matrix) (j i : nat) (v : Z) : Matrix :=
  match matrix !! j with
  | Some row => <[j := <[i := Some v]> row]> matrix
  | None => matrix
  end.

(** [matrix[j][i]] read as an operand of [+]; [null] counts as 0. *)
Definition getCell (matrix : Matrix) (j i : nat) : Z :=
  match matrix !! j with
  | Some row => match row !! i with Some (Some v) => v | _ => 0 end
  | None => 0
  end.

Definition levenshteinDistance (str1 str2 : jsstring) : Z :=
  let matrix : Matrix :=
    replicate (length str2 + 1) (replicate (length str1 + 1) None) in
  let matrix :=
    fold_left (fun matrix i => setCell matrix 0 i (Z.of_nat i))
              (seq 0 (length str1 + 1)) matrix in
  let matrix :=
    fold_left (fun matrix j => setCell matrix j 0 (Z.of_nat j))
              (seq 0 (length str2 + 1)) matrix in
  let matrix :=
    fold_left
      (fun matrix j =>
         fold_left
           (fun matrix i =>
              let indicator :=
                if decide (str1 !! (i - 1)%nat = str2 !! (j - 1)%nat)
                then 0 else 1 in
              setCell matrix j i
                (Z.min (Z.min (getCell matrix j (i - 1) + 1)
                              (getCell matrix (j - 1) i + 1))
                       (getCell matrix (j - 1) (i - 1) + indicator)))
           (seq 1 (length str1)) matrix)
      (seq 1 (length str2)) matrix in
  getCell matrix (length str2) (length str1).

(** The array literal of the helper [removeDiacritics], in source order. *)
Definition diacritics : list N :=
  [0x64E; 0x64F; 0x650; 0x64B; 0x64C; 0x64D; 0x652; 0x651; 0x670;
   0x656; 0x657; 0x659; 0x65A; 0x65B; 0x65C; 0x65D; 0x65E; 0x65F]%N.

Definition removeDiacritics (text : jsstring) : jsstring :=
  fold_left (fun result diacritic => replaceAll diacritic result)
            diacritics text.

(** The helper [calculateSimilarity].  [toLowerCase] stands for
    [String.prototype.toLowerCase], which is not modelled.  The last branch
    is the rational [1 - distance / maxLen]; the source rounds the quotient
    and the difference to doubles. *)
Definition calculateSimilarity (toLowerCase : jsstring -> jsstring)
    (str1 str2 : jsstring) : Q :=
  if decide (str1 = str2) then 1
  else
    let clean1 := toLowerCase (removeDiacritics str1) in
    let clean2 := toLowerCase (removeDiacritics str2) in
    if decide (clean1 = clean2) then 9 # 10
    else
      let maxLen := Nat.max (length clean1) (length clean2) in
      if decide (maxLen = 0%nat) then 0
      else
        let distance := levenshteinDistance clean1 clean2 in
        (1 - inject_Z distance / inject_Z (Z.of_nat maxLen))%Q.

End Helpers.

(** ** The distance the specification names

    Only used to compare the specification's formula with the code. *)

Module SpecWords.

(** Levenshtein edit distance: unit-cost insertion, deletion and
    substitution, no transposition. *)
Fixpoint levenshtein (a b : list N) : nat :=
  match a with
  | [] => length b
  | x :: a' =>
      (fix inner (b : list N) : nat :=
         match b with
         | [] => length a
         | y :: b' =>
             Nat.min (Nat.min (S (levenshtein a' b)) (S (inner b')))
                     ((if decide (x = y) then 0 else 1) + levenshtein a' b')
         end) b
  end.

(** [1 - distance / max(len(a'), len(b'))] *)
Definition levenshteinSimilarity (a' b' : list N) : Q :=
  1 - inject_Z (Z.of_nat (levenshtein a' b'))
      / inject_Z (Z.of_nat (Nat.max (length a') (length b'))).

(** Number of indices below the longer length at which the two strings do
    not hold the same code unit; an index past the end of the shorter
    string counts. *)
Definition positionalDistance (a' b' : list N) : nat :=
  length (filter (fun i => a' !! i ≠ b' !! i)
                 (seq 0 (Nat.max (length a') (length b')))).


End SpecWords.

Import SpecWords.

(** ** Predicates used in the statements *)

Module Invariants.

Import BikeModeContext ProgressScreen.

(** What the callback of [forEach] may push for the word at [index]. *)
Definition wordMistake (rw : list (list N)) (index : nat) (m : MistakeInfo)
  : Prop :=
  position m = Z.of_nat index
  /\ (type m = omission /\ (length rw <= index)%nat
      \/ type m = pronunciation /\ (index < length rw)%nat).

(** The mistakes pushed for the [count] words from [index] on. *)
Record pushed (rw : list (list N)) (index count : nat)
    (ms' : list MistakeInfo) : Prop := {
  pushed_sorted : StronglySorted Z.lt (position <$> ms');
  pushed_each :
    Forall (fun m => exists i, (index <= i < index + count)%nat
                               /\ wordMistake rw i m) ms';
  pushed_pronunciations :
    (length (filter (fun m => type m = pronunciation) ms')
     <= Nat.min count (length rw - index))%nat;
}.

(** The local calendar day of an instant, counted from the epoch:
    ECMAScript's [Day(LocalTime(t))]. *)
Definition localDay (zone : TimeZone) (t : Z) : Z :=
  LocalTime zone t / msPerDay.

(** The instant at which local time reads 0:00 of the day [day], as [UTC]
    gives it. *)
Definition midnightOf (zone : TimeZone) (day : Z) : Z :=
  UTC zone (day * msPerDay).

(** Some session of [sessions] started on the local calendar day [day]. *)
Definition onLocalDay (zone : TimeZone) (sessions : list BikeModeSession)
    (day : Z) : Prop :=
  exists session,
    session ∈ sessions /\ localDay zone (startTime session) = day.

(** A zone in which every calendar day starts at 0:00 (no clock change
    skips or repeats the local time 0:00) and a later instant never falls on
    an earlier calendar day. *)
Definition RegularZone (zone : TimeZone) : Prop :=
  (forall day, LocalTime zone (midnightOf zone day) = day * msPerDay)
  /\ (forall t1 t2, t1 <= t2 -> localDay zone t1 <= localDay zone t2).

(** [k] is the length of the run of days, ending on [today], on each of
    which a session of [sessions] started: each of the [k] days has one, the
    day before them has none. *)
Definition streakRun (zone : TimeZone) (sessions : list BikeModeSession)
    (today k : Z) : Prop :=
  0 <= k
  /\ (forall i, 0 <= i < k -> onLocalDay zone sessions (today - i))
  /\ ~ onLocalDay zone sessions (today - k).


(** Latest start first, as [sortedSessions] is. *)
Definition latestFirst (a b : BikeModeSession) : Prop :=
  startTime b <= startTime a.

End Invariants.

Import Invariants.

(** ** Invariants of the distance matrix *)

Module MatrixInvariants.

(** The cost of putting [y] in the place of [x]. *)
Definition differ (x y : N) : nat := if decide (x = y) then 0%nat else 1%nat.

(** A matrix of [height] rows of [width] cells. *)
Definition wellFormed (width height : nat) (m : Helpers.Matrix) : Prop :=
  length m = height /\ Forall (fun row => length row = width) m.

(** The distance between the first [i] code units of [str1] and the first
    [j] of [str2]. *)
Definition prefixDistance (str1 str2 : list N) (j i : nat) : Z :=
  Z.of_nat (levenshtein (take i str1) (take j str2)).

(** The state of the matrix when the outer loop reaches row [k]: the rows
    before [k] and column 0 hold prefix distances. *)
Definition rowsFilled (str1 str2 : list N) (k : nat) (m : Helpers.Matrix) : Prop :=
  wellFormed (S (length str1)) (S (length str2)) m
  /\ (forall j i, (j < k)%nat -> (j < S (length str2))%nat ->
                  (i < S (length str1))%nat ->
                  Helpers.getCell m j i = prefixDistance str1 str2 j i)
  /\ (forall j, (j < S (length str2))%nat ->
                Helpers.getCell m j 0 = prefixDistance str1 str2 j 0).

(** [min_eq] proves the equality of two nested minima of the same terms. *)
Ltac min_le :=
  lazymatch goal with
  | |- (Nat.min _ _ <= _)%nat =>
      first [ apply Nat.min_le_iff; left; min_le
            | apply Nat.min_le_iff; right; min_le ]
  | |- _ => lia
  end.

Ltac min_eq :=
  rewrite ?Nat.succ_min_distr, <- ?Nat.add_min_distr_l;
  apply Nat.le_antisymm; repeat apply Nat.min_glb; min_le.

End MatrixInvariants.


(** ** Sanity checks of the embedding on the bundled corpus *)

Module Samples.

(** The words of verse 1:1 in [createDefaultData]. *)
Definition bismi : list N := [0x628; 0x650; 0x633; 0x652; 0x645; 0x650]%N.
Definition allahi : list N :=
  [0x627; 0x644; 0x644; 0x64E; 0x651; 0x647; 0x650]%N.
Definition arrahmani : list N :=
  [0x627; 0x644; 0x631; 0x64E; 0x651; 0x62D; 0x652; 0x645; 0x64E; 0x670;
   0x646; 0x650]%N.
Definition arrahimi : list N :=
  [0x627; 0x644; 0x631; 0x64E; 0x651; 0x62D; 0x650; 0x64A; 0x645; 0x650]%N.

Definition verse_1_1 : VerseInfo :=
  {| textArabic := bismi ++ [32%N] ++ allahi ++ [32%N] ++ arrahmani
                   ++ [32%N] ++ arrahimi;
     textTransliteration := lit "Bismillahi ar-Rahman ar-Raheem";
     textEnglish := lit "In the name of Allah, the Entirely Merciful, the Especially Merciful.";
     words := [bismi; allahi; arrahmani; arrahimi];
     wordCount := 4 |}.

Definition db : QuranDatabaseClass :=
  {| verses := {[ verseKey 1 1 := verse_1_1 ]} |}.

(** A closed session that started at [start] with the given accuracy. *)
Definition sessionAt (start : Z) (accuracy : float)
  : BikeModeContext.BikeModeSession :=
  {| BikeModeContext.id := ofInt start;
     BikeModeContext.startTime := start;
     BikeModeContext.endTime := Some (start + 600000);
     BikeModeContext.versesRecited := 5;
     BikeModeContext.pausesDetected := 1;
     BikeModeContext.mistakesDetected := 2;
     BikeModeContext.totalDuration := 600000;
     BikeModeContext.averageAccuracy := accuracy;
     BikeModeContext.surahsCompleted := [] |}.

(** Midnight UTC of day 20000 after the epoch, and one hour later. *)
Definition midnight : Z := 20000 * ProgressScreen.msPerDay.
Definition oneAM : Z := midnight + 3600000.

Definition utc : ProgressScreen.TimeZone := ProgressScreen.fixedOffset 0.

Definition sessionToday : BikeModeContext.BikeModeSession :=
  sessionAt (midnight + 1800000) 90%float.
Definition sessionYesterday : BikeModeContext.BikeModeSession :=
  sessionAt (midnight - ProgressScreen.msPerDay + 1000) 91%float.
Definition sessionTwoDaysAgo : BikeModeContext.BikeModeSession :=
  sessionAt (midnight - 2 * ProgressScreen.msPerDay + 5000) 80%float.

(** Two accuracies whose sum is not a double: 0.49999999999999994 and 0.5;
    and 58.333333333333336 and 66.66666666666666. *)
Definition sessionBelowHalf : BikeModeContext.BikeModeSession :=
  sessionAt (midnight + 1800000) 0x1.fffffffffffffp-2%float.
Definition sessionHalf : BikeModeContext.BikeModeSession :=
  sessionAt (midnight + 1000) 0.5%float.
Definition sessionFiftyEight : BikeModeContext.BikeModeSession :=
  sessionAt (midnight + 1800000) 0x1.d2aaaaaaaaaabp+5%float.
Definition sessionSixtySix : BikeModeContext.BikeModeSession :=
  sessionAt (midnight + 1000) 0x1.0aaaaaaaaaaaap+6%float.

Definition hour : Z := 3600000.

(** America/New_York in 2026: UTC-5, and UTC-4 from 8 March 7:00 UTC
    (2:00 local becomes 3:00) to 1 November 6:00 UTC (2:00 local becomes
    1:00).  The skipped hour is read with UTC-5, the repeated hour with
    UTC-4. *)
Definition newYork2026 : ProgressScreen.TimeZone :=
  {| ProgressScreen.offsetAtUTC := fun t =>
       if t <? 1772953200000 then -5 * hour
       else if t <? 1793512800000 then -4 * hour
       else -5 * hour;
     ProgressScreen.offsetAtLocal := fun tlocal =>
       if tlocal <? 1772953200000 - 4 * hour then -5 * hour
       else if tlocal <? 1793512800000 - 4 * hour then -4 * hour
       else -5 * hour |}.

(** Sessions of 31 October 2026, 23:30, and of 1 November, 23:30, in New
    York, and the clock at 23:45 of 1 November, a day of 25 hours. *)
Definition newYorkSaturday : BikeModeContext.BikeModeSession :=
  sessionAt 1793503800000 90%float.
Definition newYorkSunday : BikeModeContext.BikeModeSession :=
  sessionAt 1793593800000 90%float.
Definition newYorkSundayNight : Z := 1793594700000.

(** The week of the clock change in New York: sessions of 7 March 2026,
    23:40, of 8 to 14 March, 12:00, and of 15 March, 0:10, latest first, and
    the clock at 0:30 of 15 March, 168 hours after 23:30 of 7 March. *)
Definition newYorkSpringWeek : list BikeModeContext.BikeModeSession :=
  (fun start => sessionAt start 90%float)
    <$> [1773547800000; 1773504000000; 1773417600000; 1773331200000;
         1773244800000; 1773158400000; 1773072000000; 1772985600000;
         1772944800000].
Definition newYorkSpringNight : Z := 1773549000000.

(** Africa/Cairo in 2026: UTC+2, and UTC+3 from 23 April 22:00 UTC (0:00
    local of 24 April becomes 1:00) to 29 October 21:00 UTC (24:00 local
    becomes 23:00).  The skipped hour is read with UTC+2, the repeated hour
    with UTC+3. *)
Definition cairo2026 : ProgressScreen.TimeZone :=
  {| ProgressScreen.offsetAtUTC := fun t =>
       if t <? 1776981600000 then 2 * hour
       else if t <? 1793307600000 then 3 * hour
       else 2 * hour;
     ProgressScreen.offsetAtLocal := fun tlocal =>
       if tlocal <? 1776981600000 + 3 * hour then 2 * hour
       else if tlocal <? 1793307600000 + 3 * hour then 3 * hour
       else 2 * hour |}.

(** Sessions of 23 April 2026, 18:00, and of 24 April, 9:00, in Cairo, and
    the clock at 10:00 of 24 April, the day on which 0:00 is skipped; 24
    April is day 20567 after the epoch. *)
Definition cairoThursday : BikeModeContext.BikeModeSession :=
  sessionAt 1776960000000 90%float.
Definition cairoFriday : BikeModeContext.BikeModeSession :=
  sessionAt 1777010400000 90%float.
Definition cairoFridayMorning : Z := 1777014000000.

(** A provider with an open session and a full history. *)
Definition fullProvider : BikeModeContext.ProviderState :=
  {| BikeModeContext.bikeMode := true;
     BikeModeContext.currentSession := Some sessionToday;
     BikeModeContext.sessionHistory := replicate 50 sessionYesterday |}.

End Samples.

Import Samples.

(** The chapters of [createDefaultData]. *)
Module NavigationSamples.

Import Navigation.

Definition alFatiha : SurahInfo :=
  {| number := 1;
     nameArabic := [0x627; 0x644; 0x641; 0x627; 0x62A; 0x62D; 0x629]%N;
     nameEnglish := lit "Al-Fatiha";
     nameTransliteration := lit "Al-Fatiha";
     totalVerses := 7;
     revelationType := Meccan;
     revelationOrder := 5;
     description := lit "The Opening - The first chapter of the Quran" |}.

Definition alBaqarah : SurahInfo :=
  {| number := 2;
     nameArabic := [0x627; 0x644; 0x628; 0x642; 0x631; 0x629]%N;
     nameEnglish := lit "Al-Baqarah";
     nameTransliteration := lit "Al-Baqarah";
     totalVerses := 286;
     revelationType := Medinan;
     revelationOrder := 87;
     description := lit "The Cow - The longest chapter of the Quran" |}.

Definition yaseen : SurahInfo :=
  {| number := 36;
     nameArabic := [0x64A; 0x633]%N;
     nameEnglish := lit "Yaseen";
     nameTransliteration := lit "Yaseen";
     totalVerses := 83;
     revelationType := Meccan;
     revelationOrder := 41;
     description := lit "Yaseen - Often called the heart of the Quran" |}.

Definition defaultSurahs : gmap Z SurahInfo :=
  {[ 1 := alFatiha; 2 := alBaqarah; 36 := yaseen ]}.

End NavigationSamples.

Example split_example :
  splitWhiteSpace (lit " ab  c ") = [[]; lit "ab"; lit "c"; []].
Proof. vm_compute. reflexivity. Qed.

Example removeDiacritics_bismi :
  removeDiacritics bismi = [0x628; 0x633; 0x645]%N.
Proof. vm_compute. reflexivity. Qed.

Example validate_exact :
  let r := validateRecitation db 1 1 (textArabic verse_1_1) in
  isValid r = true /\ mistakes r = [] /\ accuracy r = Finite (400 # 4).
Proof. vm_compute. auto. Qed.

Example validate_first_two_words :
  let r := validateRecitation db 1 1 (bismi ++ [32%N] ++ allahi) in
  isValid r = false /\ (position <$> mistakes r) = [2; 3]
  /\ (type <$> mistakes r) = [omission; omission]
  /\ accuracy r = Finite (200 # 4).
Proof. vm_compute. auto. Qed.

Example levenshtein_kitten :
  levenshtein (lit "kitten") (lit "sitting") = 3%nat.
Proof. vm_compute. reflexivity. Qed.

(** ** Facts on lists *)

Section ListFacts.

Context {A : Type} (P : A -> Prop) `{!forall x, Decision (P x)}.

Lemma filter_Forall_id (l : list A) : Forall P l -> filter P l = l.
Proof.
  induction 1 as [|x l Hx _ IH]; [done|].
  by rewrite filter_cons_True, IH.
Qed.

Lemma length_filter_split (l : list A) :
  (length (filter P l) + length (filter (fun x => ~ P x) l))%nat = length l.
Proof.
  induction l as [|x l IH]; [done|].
  destruct (decide (P x)).
  - rewrite filter_cons_True, filter_cons_False by tauto. simpl. lia.
  - rewrite filter_cons_False, filter_cons_True by tauto. simpl. lia.
Qed.

Lemma fold_count_filter (l : list A) (acc : Z) :
  fold_left (fun n x => if decide (P x) then n + 1 else n) l acc
  = acc + Z.of_nat (length (filter P l)).
Proof.
  revert acc; induction l as [|x l IH]; intros acc; simpl; [lia|].
  rewrite IH. destruct (decide (P x)).
  - rewrite filter_cons_True by done. simpl. lia.
  - by rewrite filter_cons_False.
Qed.

End ListFacts.

Lemma StronglySorted_lt_NoDup (l : list Z) :
  StronglySorted Z.lt l -> NoDup l.
Proof.
  induction 1 as [|x l _ IH Hall]; constructor; [|done].
  intros Hin. rewrite Forall_forall in Hall. specialize (Hall x Hin). lia.
Qed.

(** ** Normalisation *)

Section Normalisation.

Implicit Types (text : list N) (ds : list N).

Lemma fold_replaceAll_filter ds text :
  fold_left (fun result diacritic => replaceAll diacritic result) ds text
  = filter (fun c => c ∉ ds) text.
Proof.
  revert text; induction ds as [|d ds IH]; intros text; simpl.
  - symmetry. induction text as [|c text IHt]; [done|].
    rewrite filter_cons_True; [by f_equal | apply not_elem_of_nil].
  - rewrite IH. unfold replaceAll. rewrite list_filter_filter.
    apply list_filter_iff. intros c. rewrite not_elem_of_cons. tauto.
Qed.

Lemma removeDiacritics_filter text :
  removeDiacritics text = filter (fun c => c ∉ diacritics) text.
Proof. apply fold_replaceAll_filter. Qed.

Lemma removeDiacritics_clean text :
  Forall (fun c => c ∉ diacritics) (removeDiacritics text).
Proof.
  rewrite removeDiacritics_filter. apply Forall_forall.
  intros c Hc. by apply list_elem_of_filter in Hc as [? _].
Qed.

Lemma removeDiacritics_nil : removeDiacritics [] = [].
Proof. reflexivity. Qed.

End Normalisation.

(** C9. Stripping diacritics is idempotent, because the result of one pass
    holds none of the code units of the fixed list the pass removes. *)
Theorem C9_removeDiacritics_idempotent (x : list N) :
  removeDiacritics (removeDiacritics x) = removeDiacritics x
  /\ Forall (fun c => c ∉ diacritics) (removeDiacritics x).
Proof.
  split; [|apply removeDiacritics_clean].
  rewrite (removeDiacritics_filter (removeDiacritics x)).
  apply filter_Forall_id, removeDiacritics_clean.
Qed.

(** ** Similarity *)

Section Similarity.

Implicit Types (a b : list N).

Lemma countMatches_filter a b n :
  countMatches a b n
  = Z.of_nat (length (filter (fun i => a !! i = b !! i) (seq 0 n))).
Proof. unfold countMatches. by rewrite fold_count_filter. Qed.

(** Past the end of the shorter string every index is a mismatch. *)
Lemma filter_mismatch_tail a b :
  let lo := Nat.min (length a) (length b) in
  let hi := Nat.max (length a) (length b) in
  filter (fun i => a !! i ≠ b !! i) (seq lo (hi - lo)) = seq lo (hi - lo).
Proof.
  intros lo hi. apply filter_Forall_id, Forall_forall. intros i Hi.
  apply elem_of_seq in Hi.
  destruct (Nat.le_ge_cases (length a) (length b)) as [Hab|Hab].
  - rewrite (lookup_ge_None_2 a i) by lia.
    destruct (lookup_lt_is_Some_2 b i) as [y ->]; [lia|done].
  - rewrite (lookup_ge_None_2 b i) by lia.
    destruct (lookup_lt_is_Some_2 a i) as [y ->]; [lia|done].
Qed.

Lemma countMatches_positionalDistance a b :
  countMatches a b (Nat.min (length a) (length b))
  = Z.of_nat (Nat.max (length a) (length b))
    - Z.of_nat (positionalDistance a b).
Proof.
  rewrite countMatches_filter. unfold positionalDistance.
  set (lo := Nat.min (length a) (length b)).
  set (hi := Nat.max (length a) (length b)).
  replace hi with (lo + (hi - lo))%nat at 2 by lia.
  rewrite seq_app, filter_app, length_app. simpl.
  pose proof (filter_mismatch_tail a b) as Htail. cbv zeta in Htail.
  fold lo hi in Htail. rewrite Htail, length_seq.
  pose proof (length_filter_split (fun i => a !! i = b !! i) (seq 0 lo)) as H.
  rewrite length_seq in H. lia.
Qed.

Lemma countMatches_bounds a b n :
  0 <= countMatches a b n <= Z.of_nat n.
Proof.
  rewrite countMatches_filter.
  pose proof (length_filter (fun i => a !! i = b !! i) (seq 0 n)) as H.
  rewrite length_seq in H. lia.
Qed.

Lemma calculateSimilarity_unfold a b :
  a ≠ b -> removeDiacritics a ≠ removeDiacritics b ->
  calculateSimilarity a b
  = (inject_Z (countMatches (removeDiacritics a) (removeDiacritics b)
                 (Nat.min (length (removeDiacritics a))
                          (length (removeDiacritics b))))
     / inject_Z (Z.of_nat (Nat.max (length (removeDiacritics a))
                                   (length (removeDiacritics b)))))%Q
  /\ Nat.max (length (removeDiacritics a)) (length (removeDiacritics b))
     ≠ 0%nat.
Proof.
  intros Hab Hclean. unfold calculateSimilarity.
  rewrite !decide_False by done.
  assert (Nat.max (length (removeDiacritics a))
                  (length (removeDiacritics b)) ≠ 0%nat) as Hmax.
  { intros H0. apply Hclean.
    destruct (removeDiacritics a), (removeDiacritics b); simpl in H0;
      (done || lia). }
  by rewrite decide_False.
Qed.

(** The similarity is a rational between 0 and 1. *)
Lemma calculateSimilarity_range a b :
  (0 <= calculateSimilarity a b <= 1)%Q.
Proof.
  unfold calculateSimilarity.
  destruct (decide (a = b)); [split; discriminate|].
  destruct (decide (removeDiacritics a = removeDiacritics b));
    [split; discriminate|].
  set (a' := removeDiacritics a). set (b' := removeDiacritics b).
  destruct (decide (Nat.max (length a') (length b') = 0%nat));
    [split; discriminate|].
  pose proof (countMatches_bounds a' b' (Nat.min (length a') (length b'))).
  set (m := countMatches a' b' _) in *.
  set (M := Nat.max (length a') (length b')) in *.
  assert (0 < Z.of_nat M) by lia.
  assert (0 < inject_Z (Z.of_nat M))%Q as HM
      by (rewrite <- (Zlt_Qlt 0); lia).
  split.
  - apply Qle_shift_div_l; [done|]. rewrite Qmult_0_l.
    rewrite <- (Zle_Qle 0). lia.
  - apply Qle_shift_div_r; [done|]. rewrite Qmult_1_l.
    rewrite <- Zle_Qle. lia.
Qed.

End Similarity.

(** C1 (as stated, refuted). For the words "bs" and "s" (two Arabic letters
    against the second one alone) the code returns 0, while the formula with
    the Levenshtein distance gives 1/2. *)
Lemma C1_levenshtein_formula_fails :
  ~ (forall a b : list N,
        a ≠ b -> removeDiacritics a ≠ removeDiacritics b ->
        (calculateSimilarity a b
         == levenshteinSimilarity (removeDiacritics a) (removeDiacritics b))%Q).
Proof.
  intros H.
  specialize (H [0x628; 0x633]%N [0x633]%N).
  assert (([0x628; 0x633]%N : list N) ≠ [0x633]%N) as H1 by discriminate.
  assert (removeDiacritics [0x628; 0x633]%N ≠ removeDiacritics [0x633]%N)
    as H2 by (vm_compute; discriminate).
  specialize (H H1 H2). vm_compute in H. discriminate.
Qed.

(** C1 (amended). When neither the strings nor their normalised forms are
    equal, the similarity is [1 - p / max(len a', len b')] where [p] is the
    positional distance of the normalised strings: the number of indices at
    which they do not hold the same code unit. *)
Theorem C1_similarity_positional (a b : list N) :
  a ≠ b -> removeDiacritics a ≠ removeDiacritics b ->
  (calculateSimilarity a b
   == 1 - inject_Z (Z.of_nat (positionalDistance (removeDiacritics a)
                                                 (removeDiacritics b)))
          / inject_Z (Z.of_nat (Nat.max (length (removeDiacritics a))
                                        (length (removeDiacritics b)))))%Q.
Proof.
  intros Hab Hclean.
  destruct (calculateSimilarity_unfold a b Hab Hclean) as [-> Hmax].
  rewrite countMatches_positionalDistance.
  set (M := Nat.max _ _) in *. set (p := positionalDistance _ _).
  unfold Z.sub. rewrite inject_Z_plus, inject_Z_opp.
  field. intros H0. apply (inject_Z_injective (Z.of_nat M) 0) in H0. lia.
Qed.

Lemma C1_similarity_positional_witness :
  (calculateSimilarity [0x628; 0x633]%N [0x633]%N
   == 1 - inject_Z (Z.of_nat (positionalDistance
                                (removeDiacritics [0x628; 0x633]%N)
                                (removeDiacritics [0x633]%N)))
          / inject_Z (Z.of_nat (Nat.max
                                  (length (removeDiacritics [0x628; 0x633]%N))
                                  (length (removeDiacritics [0x633]%N)))))%Q.
Proof.
  apply (C1_similarity_positional [0x628; 0x633]%N [0x633]%N).
  - discriminate.
  - vm_compute. discriminate.
Defined.

(** C2 (as stated, refuted). Two empty strings have empty normalised forms
    and similarity 1, not 0. *)
Lemma C2_empty_forms_not_zero :
  ~ (forall a b : list N,
        removeDiacritics a = [] -> removeDiacritics b = [] ->
        (calculateSimilarity a b == 0)%Q).
Proof.
  intros H. specialize (H [] [] eq_refl eq_refl).
  vm_compute in H. discriminate.
Qed.

(** C2 (amended). When both normalised forms are empty, the similarity is
    1 for equal strings and 0.9 otherwise. *)
Theorem C2_similarity_empty_forms (a b : list N) :
  removeDiacritics a = [] -> removeDiacritics b = [] ->
  calculateSimilarity a b = if decide (a = b) then 1%Q else (9 # 10)%Q.
Proof.
  intros Ha Hb. unfold calculateSimilarity.
  destruct (decide (a = b)); [done|].
  rewrite Ha, Hb. by rewrite decide_True.
Qed.

Lemma C2_similarity_empty_forms_witness :
  calculateSimilarity [0x64E]%N [] = (9 # 10)%Q.
Proof.
  apply (C2_similarity_empty_forms [0x64E]%N []); reflexivity.
Defined.

(** ** The validator *)

Section Validator.

Implicit Types (rw ews : list (list N)) (ms : list MistakeInfo).

Lemma checkWord_cases rw ms (miss : list (list N)) (ew : list N) index :
  (exists m, wordMistake rw index m
             /\ checkWord rw (ms, miss) ew index
                = (ms ++ [m],
                   miss ++ if decide (length rw <= index)%nat
                           then [ew] else []))
  \/ ((index < length rw)%nat
      /\ checkWord rw (ms, miss) ew index = (ms, miss)).
Proof.
  unfold checkWord, wordMistake.
  destruct (decide (length rw <= index)%nat) as [Hge|Hlt].
  - left. eexists. split; [|reflexivity]. simpl. auto.
  - destruct (Qlt_le_dec _ (7 # 10)).
    + left. eexists. split; [|by rewrite app_nil_r]. simpl.
      split; [done|]. right. split; [done|lia].
    + right. split; [lia|done].
Qed.

Lemma forEachWord_spec rw ews : forall index ms miss,
  exists ms',
    forEachWord rw index ews (ms, miss)
    = (ms ++ ms', miss ++ drop (length rw - index) ews)
    /\ pushed rw index (length ews) ms'.
Proof.
  induction ews as [|ew rest IH]; intros index ms miss;
    cbn [forEachWord length].
  - exists []. rewrite drop_nil, !app_nil_r. split; [done|].
    split; simpl; [constructor|constructor|lia].
  - destruct (checkWord_cases rw ms miss ew index)
      as [(m & Hm & ->)|[Hlt ->]].
    + destruct (IH (S index) (ms ++ [m])
                   (miss ++ if decide (length rw <= index)%nat
                            then [ew] else [])) as (ms' & -> & [Hs He Hp]).
      exists (m :: ms'). split.
      * rewrite <- !app_assoc. simpl. f_equal.
        destruct (decide (length rw <= index)%nat) as [Hge|Hlt].
        -- replace (length rw - index)%nat with 0%nat by lia.
           replace (length rw - S index)%nat with 0%nat by lia.
           by rewrite drop_0.
        -- replace (length rw - index)%nat
             with (S (length rw - S index)) by lia.
           by rewrite app_nil_l.
      * split.
        -- rewrite fmap_cons. constructor; [done|].
           rewrite Forall_fmap. eapply Forall_impl; [exact He|].
           intros m' (i & Hi & Hpos & _). destruct Hm as [Hpm _].
           simpl. lia.
        -- constructor.
           ++ exists index. split; [lia|done].
           ++ eapply Forall_impl; [exact He|].
              intros m' (i & Hi & Hw). exists i. split; [lia|done].
        -- destruct Hm as [_ [[Ht Hge]|[Ht Hlt]]].
           ++ rewrite filter_cons_False by (rewrite Ht; discriminate).
              etransitivity; [exact Hp|lia].
           ++ rewrite filter_cons_True by done. cbn [length].
              etransitivity; [apply le_n_S; exact Hp|lia].
    + destruct (IH (S index) ms miss) as (ms' & -> & [Hs He Hp]).
      exists ms'. split.
      * f_equal.
        replace (length rw - index)%nat
          with (S (length rw - S index)) by lia.
        done.
      * split; [done| |etransitivity; [exact Hp|lia]].
        eapply Forall_impl; [exact He|].
        intros m' (i & Hi & Hw). exists i. split; [lia|done].
Qed.

(** The three fields of the result that the loops build. *)
Lemma validateWords_spec ews rw :
  exists ms0,
    pushed rw 0 (length ews) ms0
    /\ missingWords (validateWords ews rw) = drop (length rw) ews
    /\ mistakes (validateWords ews rw)
       = ms0 ++ (if decide (length ews < length rw)%nat
                 then [ {| type := addition; expected := None;
                           recited := None;
                           position := Z.of_nat (length ews);
                           severity := medium |} ]
                 else [])
    /\ extraWords (validateWords ews rw)
       = (if decide (length ews < length rw)%nat
          then drop (length ews) rw else [])
    /\ accuracy (validateWords ews rw)
       = times (divide
                  (Z.of_nat (length ews)
                   - Z.of_nat (length (drop (length rw) ews))
                   - Z.of_nat (length (filter
                                         (fun m => type m = pronunciation)
                                         ms0)))
                  (Z.of_nat (length ews))) 100.
Proof.
  destruct (forEachWord_spec rw ews 0 [] []) as (ms0 & Heq & Hp).
  exists ms0. split; [done|].
  unfold validateWords. rewrite Heq. simpl.
  rewrite Nat.sub_0_r.
  destruct (decide (length ews < length rw)%nat); simpl.
  - repeat split; try done.
    rewrite filter_app, filter_cons_False, filter_nil, app_nil_r
      by (simpl; discriminate).
    done.
  - by rewrite app_nil_r.
Qed.

End Validator.

(** C7. For a verse that the corpus does not hold, the validator returns the
    all-empty invalid result with accuracy 0, whatever the recited text. *)
Theorem C7_absent_verse (this : QuranDatabaseClass)
    (surahNumber verseNumber : Z) (recitedText : list N) :
  getVerse this surahNumber verseNumber = None ->
  validateRecitation this surahNumber verseNumber recitedText
  = {| isValid := false; accuracy := Finite 0; mistakes := [];
       missingWords := []; extraWords := [] |}.
Proof. intros Habsent. unfold validateRecitation. by rewrite Habsent. Qed.

Lemma C7_absent_verse_witness :
  validateRecitation db 2 1 (textArabic verse_1_1)
  = {| isValid := false; accuracy := Finite 0; mistakes := [];
       missingWords := []; extraWords := [] |}.
Proof.
  apply (C7_absent_verse db 2 1 (textArabic verse_1_1)).
  vm_compute. reflexivity.
Defined.

(** C3. For a verse of the corpus with at least one word, the accuracy is a
    rational between 0 and 100: the number of correct words is not negative,
    since omissions sit at positions from the recited word count on,
    mispronunciations below it, and missing words and mispronunciations
    together do not exceed the canonical word count. *)
Theorem C3_accuracy_range (this : QuranDatabaseClass)
    (surahNumber verseNumber : Z) (verse : VerseInfo) (recitedText : list N) :
  getVerse this surahNumber verseNumber = Some verse ->
  words verse ≠ [] ->
  let r := validateRecitation this surahNumber verseNumber recitedText in
  let recitedCount := Z.of_nat (length (splitWords recitedText)) in
  let expectedCount := Z.of_nat (length (words verse)) in
  let mispronounced :=
    Z.of_nat (length (filter (fun m => type m = pronunciation)
                             (mistakes r))) in
  let missing := Z.of_nat (length (missingWords r)) in
  let correctWords := expectedCount - missing - mispronounced in
  (exists q, accuracy r = Finite q
             /\ (q == inject_Z correctWords / inject_Z expectedCount * 100)%Q
             /\ (0 <= q <= 100)%Q)
  /\ 0 <= correctWords
  /\ Forall (fun m => type m = omission -> recitedCount <= position m)
            (mistakes r)
  /\ Forall (fun m => type m = pronunciation -> position m < recitedCount)
            (mistakes r)
  /\ missing + mispronounced <= expectedCount.
Proof.
  intros Hverse Hwords. unfold validateRecitation. rewrite Hverse.
  set (ews := words verse) in *. set (rw := splitWords recitedText).
  destruct (validateWords_spec ews rw)
    as (ms0 & [Hs He Hp] & Hmiss & Hms & _ & Hacc).
  cbv zeta. rewrite Hmiss, Hms, Hacc.
  assert (0 < length ews)%nat as Hpos by (destruct ews; [done|simpl; lia]).
  assert (length (filter (fun m => type m = pronunciation)
                   (ms0 ++ (if decide (length ews < length rw)%nat
                            then [ {| type := addition; expected := None;
                                      recited := None;
                                      position := Z.of_nat (length ews);
                                      severity := medium |} ]
                            else [])))
          = length (filter (fun m => type m = pronunciation) ms0)) as ->.
  { rewrite filter_app. destruct (decide _); [|by rewrite app_nil_r].
    rewrite filter_cons_False by (simpl; discriminate).
    by rewrite filter_nil, app_nil_r. }
  rewrite length_drop.
  set (p := length (filter (fun m => type m = pronunciation) ms0)) in *.
  assert (p <= Nat.min (length ews) (length rw))%nat as Hp'
      by (etransitivity; [exact Hp|lia]).
  set (c := Z.of_nat (length ews) - Z.of_nat (length ews - length rw) - Z.of_nat p).
  assert (0 <= c <= Z.of_nat (length ews)) as Hc by (unfold c; lia).
  split; [|split; [lia|split; [|split; [|lia]]]].
  - unfold divide. rewrite decide_False by lia. simpl.
    eexists. split; [reflexivity|]. split; [reflexivity|].
    assert (0 < inject_Z (Z.of_nat (length ews)))%Q as Hn
        by (rewrite <- (Zlt_Qlt 0); lia).
    split.
    + apply Qmult_le_0_compat; [|discriminate].
      apply Qle_shift_div_l; [done|]. rewrite Qmult_0_l.
      rewrite <- (Zle_Qle 0). lia.
    + apply Qle_trans with (1 * 100)%Q; [|unfold Qle; simpl; lia].
      apply Qmult_le_compat_r; [|discriminate].
      apply Qle_shift_div_r; [done|]. rewrite Qmult_1_l.
      rewrite <- Zle_Qle. lia.
  - apply Forall_app. split.
    + eapply Forall_impl; [exact He|].
      intros m (i & _ & Hpm & [[_ Hge]|[Ht _]]) Hom; [lia|congruence].
    + destruct (decide _); constructor; [discriminate|constructor].
  - apply Forall_app. split.
    + eapply Forall_impl; [exact He|].
      intros m (i & _ & Hpm & [[Ht _]|[_ Hlt]]) Hpr; [congruence|lia].
    + destruct (decide _); constructor; [discriminate|constructor].
Qed.

Lemma C3_accuracy_range_witness :
  exists q,
    accuracy (validateRecitation db 1 1 (bismi ++ [32%N] ++ allahi))
    = Finite q
    /\ (0 <= q <= 100)%Q.
Proof.
  destruct (C3_accuracy_range db 1 1 verse_1_1 (bismi ++ [32%N] ++ allahi))
    as [(q & Hq & _ & Hrange) _].
  - vm_compute. reflexivity.
  - discriminate.
  - exists q. split; [exact Hq|exact Hrange].
Defined.

(** C8. When more words are recited than the verse has, [extraWords] is the
    recited words from the canonical count on, and the mistakes end with the
    only mistake of type addition, at the canonical count, of severity
    medium. *)
Theorem C8_surplus_words (this : QuranDatabaseClass)
    (surahNumber verseNumber : Z) (verse : VerseInfo) (recitedText : list N) :
  getVerse this surahNumber verseNumber = Some verse ->
  (length (words verse) < length (splitWords recitedText))%nat ->
  let r := validateRecitation this surahNumber verseNumber recitedText in
  extraWords r = drop (length (words verse)) (splitWords recitedText)
  /\ (exists others,
         mistakes r
         = others ++ [ {| type := addition; expected := None; recited := None;
                          position := Z.of_nat (length (words verse));
                          severity := medium |} ]
         /\ Forall (fun m => type m ≠ addition) others)
  /\ length (filter (fun m => type m = addition) (mistakes r)) = 1%nat.
Proof.
  intros Hverse Hmore. unfold validateRecitation. rewrite Hverse.
  set (ews := words verse) in *. set (rw := splitWords recitedText) in *.
  destruct (validateWords_spec ews rw)
    as (ms0 & [Hs He Hp] & _ & Hms & Hextra & _).
  cbv zeta. rewrite Hms, Hextra, !decide_True by done.
  assert (Forall (fun m => type m ≠ addition) ms0) as Hothers.
  { eapply Forall_impl; [exact He|].
    intros m (i & _ & _ & [[Ht _]|[Ht _]]); rewrite Ht; discriminate. }
  split; [done|]. split; [by exists ms0|].
  rewrite filter_app, filter_cons_True, filter_nil by done.
  rewrite length_app. simpl.
  assert (filter (fun m => type m = addition) ms0 = []) as ->; [|done].
  clear -Hothers. induction Hothers as [|m l Hm _ IH]; [done|].
  by rewrite filter_cons_False.
Qed.

Lemma C8_surplus_words_witness :
  extraWords (validateRecitation db 1 1
                (textArabic verse_1_1 ++ [32%N] ++ bismi))
  = [bismi]
  /\ length (filter (fun m => type m = addition)
                    (mistakes (validateRecitation db 1 1
                                 (textArabic verse_1_1 ++ [32%N] ++ bismi))))
     = 1%nat.
Proof.
  destruct (C8_surplus_words db 1 1 verse_1_1
              (textArabic verse_1_1 ++ [32%N] ++ bismi))
    as (Hextra & _ & Hone).
  - vm_compute. reflexivity.
  - vm_compute. lia.
  - split; [|exact Hone]. cbv zeta. rewrite Hextra. vm_compute. reflexivity.
Defined.

(** C10. The mistakes of a verse of the corpus come in strictly increasing
    position, so no two of them share a position: omissions and
    mispronunciations lie at canonical word indices, and a mistake of type
    addition lies at the canonical word count. *)
Theorem C10_positions_increase (this : QuranDatabaseClass)
    (surahNumber verseNumber : Z) (verse : VerseInfo) (recitedText : list N) :
  getVerse this surahNumber verseNumber = Some verse ->
  let r := validateRecitation this surahNumber verseNumber recitedText in
  let expectedCount := Z.of_nat (length (words verse)) in
  StronglySorted Z.lt (position <$> mistakes r)
  /\ NoDup (position <$> mistakes r)
  /\ Forall (fun m => if decide (type m = addition)
                      then position m = expectedCount
                      else 0 <= position m < expectedCount) (mistakes r).
Proof.
  intros Hverse.
  cut (let r := validateRecitation this surahNumber verseNumber recitedText in
       StronglySorted Z.lt (position <$> mistakes r)
       /\ Forall (fun m => if decide (type m = addition)
                           then position m = Z.of_nat (length (words verse))
                           else 0 <= position m
                                < Z.of_nat (length (words verse)))
                 (mistakes r)).
  { cbv zeta. intros [Hsorted Hall].
    split; [done|]. split; [by apply StronglySorted_lt_NoDup|done]. }
  unfold validateRecitation. rewrite Hverse.
  set (ews := words verse) in *. set (rw := splitWords recitedText) in *.
  destruct (validateWords_spec ews rw)
    as (ms0 & [Hs He Hp] & _ & Hms & _ & _).
  cbv zeta. rewrite Hms.
  assert (Forall (fun m => type m ≠ addition
                           /\ 0 <= position m < Z.of_nat (length ews)) ms0)
    as Hbelow.
  { eapply Forall_impl; [exact He|].
    intros m (i & Hi & Hpm & [[Ht _]|[Ht _]]);
      (split; [rewrite Ht; discriminate|lia]). }
  split.
  - destruct (decide _); [|by rewrite app_nil_r].
    clear -Hs Hbelow. induction Hbelow as [|m l [_ Hm] Hl IH]; simpl.
    + repeat constructor.
    + apply StronglySorted_inv in Hs as [Hs Hall].
      constructor; [by apply IH|].
      rewrite fmap_app. apply Forall_app. split; [exact Hall|].
      repeat constructor. simpl. lia.
  - apply Forall_app. split.
    + eapply Forall_impl; [exact Hbelow|].
      intros m [Ht Hm]. by rewrite decide_False.
    + destruct (decide (_ < _)%nat); repeat constructor.
Qed.

Lemma C10_positions_increase_witness :
  StronglySorted Z.lt
    (position <$> mistakes (validateRecitation db 1 1
                              (bismi ++ [32%N] ++ allahi))).
Proof.
  destruct (C10_positions_increase db 1 1 verse_1_1
              (bismi ++ [32%N] ++ allahi)) as (Hsorted & _ & _).
  - vm_compute. reflexivity.
  - exact Hsorted.
Defined.

(** ** Session history *)

Import BikeModeContext ProgressScreen.

Lemma endSession_history (dateNow msNow : Z) (st : ProviderState)
    (current : BikeModeSession) :
  currentSession st = Some current ->
  sessionHistory (endSession dateNow msNow st)
  = endedSession dateNow msNow current :: take 49 (sessionHistory st).
Proof. intros Hcur. unfold endSession. by rewrite Hcur. Qed.

Lemma call_history_bound (st : ProviderState) (c : Call) :
  (length (sessionHistory st) <= 50)%nat ->
  (length (sessionHistory (call st c)) <= 50)%nat.
Proof.
  intros Hst. destruct c as [msNow dateNow|dateNow msNow|]; simpl.
  - done.
  - unfold endSession. destruct (currentSession st); [|done].
    cbn [sessionHistory]. rewrite length_take. lia.
  - lia.
Qed.

(** Whatever the calls made since the provider was mounted with an empty
    history, the history never holds more than 50 sessions. *)
Lemma run_history_bound (calls : list Call) :
  (length (sessionHistory (run calls)) <= 50)%nat.
Proof.
  unfold run.
  assert (length (sessionHistory initialState) <= 50)%nat as Hinit
      by (simpl; lia).
  revert Hinit. generalize initialState.
  induction calls as [|c calls IH]; intros st Hst; simpl; [done|].
  by apply IH, call_history_bound.
Qed.

(** C6. An [endSession] with an open session leaves a history of at most 50
    sessions, whose head is the session just closed and whose tail is the
    previous history in its order; a previous history of 50 sessions loses
    its last one, a shorter one loses none. *)
Theorem C6_history_capped (dateNow msNow : Z) (st : ProviderState)
    (current : BikeModeSession) :
  currentSession st = Some current ->
  let history := sessionHistory st in
  let history' := sessionHistory (endSession dateNow msNow st) in
  let ended := endedSession dateNow msNow current in
  (length history' <= 50)%nat
  /\ history' = ended :: take 49 history
  /\ ((length history < 50)%nat -> history' = ended :: history)
  /\ (forall kept oldest,
         history = kept ++ [oldest] -> length history = 50%nat ->
         history' = ended :: kept).
Proof.
  intros Hcur history history' ended.
  assert (history' = ended :: take 49 history) as Heq
      by (by apply endSession_history).
  split; [|split; [done|split]].
  - rewrite Heq. cbn [length]. rewrite length_take. lia.
  - intros Hlt. rewrite Heq, take_ge by lia. done.
  - intros kept oldest Hsplit Hlen. rewrite Heq, Hsplit. f_equal.
    rewrite Hsplit, length_app in Hlen. simpl in Hlen.
    apply take_app_length'. lia.
Qed.

Lemma C6_history_capped_witness :
  (length (sessionHistory (endSession oneAM oneAM fullProvider)) <= 50)%nat
  /\ sessionHistory (endSession oneAM oneAM fullProvider)
     = endedSession oneAM oneAM sessionToday :: replicate 49 sessionYesterday.
Proof.
  destruct (C6_history_capped oneAM oneAM fullProvider sessionToday eq_refl)
    as (Hlen & Heq & _).
  split; [exact Hlen|exact Heq].
Defined.

(** ** Statistics *)

Section Statistics.

Variable zone : TimeZone.

Implicit Types (sessions : list BikeModeSession) (s : BikeModeSession).

Lemma msPerDay_pos : 0 < msPerDay.
Proof. reflexivity. Qed.

(** [setHours(0, 0, 0, 0)] is the instant read for 0:00 of the local day. *)
Lemma setHoursZero_midnightOf (t : Z) :
  setHoursZero zone t = midnightOf zone (localDay zone t).
Proof.
  pose proof msPerDay_pos as HD.
  unfold setHoursZero, midnightOf, localDay. cbv zeta. f_equal.
  rewrite Z.mod_eq by lia. lia.
Qed.

Lemma insertSorted_elem_of {A} (compareFn : A -> A -> Z) (x y : A)
    (l : list A) :
  y ∈ insertSorted compareFn x l <-> y = x \/ y ∈ l.
Proof.
  induction l as [|z l IH]; simpl.
  - rewrite list_elem_of_singleton, elem_of_nil. tauto.
  - destruct (compareFn x z <=? 0).
    + by rewrite elem_of_cons.
    + rewrite !elem_of_cons, IH. tauto.
Qed.

Lemma sort_elem_of {A} (compareFn : A -> A -> Z) (y : A) (l : list A) :
  y ∈ sort compareFn l <-> y ∈ l.
Proof.
  induction l as [|x l IH]; simpl; [done|].
  rewrite insertSorted_elem_of, elem_of_cons, IH. done.
Qed.

Lemma insertSorted_latestFirst s sessions :
  StronglySorted latestFirst sessions ->
  StronglySorted latestFirst
    (insertSorted (fun a b => startTime b - startTime a) s sessions).
Proof.
  induction 1 as [|s' l Hl IH Hall]; simpl.
  - repeat constructor.
  - destruct (Z.leb_spec (startTime s' - startTime s) 0) as [Hle|Hgt].
    + constructor; [by constructor|].
      constructor; [unfold latestFirst; lia|].
      eapply Forall_impl; [exact Hall|].
      unfold latestFirst. intros; lia.
    + constructor; [done|].
      apply Forall_forall. intros y Hy.
      apply insertSorted_elem_of in Hy as [->|Hy].
      * unfold latestFirst; lia.
      * rewrite Forall_forall in Hall. by apply Hall.
Qed.

Lemma sort_latestFirst sessions :
  StronglySorted latestFirst
    (sort (fun a b => startTime b - startTime a) sessions).
Proof.
  induction sessions as [|s l IH]; simpl; [constructor|].
  by apply insertSorted_latestFirst.
Qed.

Lemma onLocalDay_sort sessions day :
  onLocalDay zone (sort (fun a b => startTime b - startTime a) sessions) day
  <-> onLocalDay zone sessions day.
Proof.
  unfold onLocalDay. split; intros (s & Hs & Hday); exists s;
    (split; [by apply sort_elem_of in Hs || by apply sort_elem_of|done]).
Qed.

Lemma streakDays_getStats filterNow streakNow period history :
  streakDays (getStats zone filterNow streakNow period history)
  = streakLoop zone
      (sort (fun a b => startTime b - startTime a)
            (getFilteredSessions filterNow period history))
      0 (setHoursZero zone streakNow).
Proof.
  unfold getStats.
  destruct (decide _) as [Hempty|]; [|done].
  apply nil_length_inv in Hempty. by rewrite Hempty.
Qed.

(** A run of days is unique. *)
Lemma streakRun_unique sessions today k n :
  streakRun zone sessions today k -> streakRun zone sessions today n -> k = n.
Proof.
  intros (Hk & Hrun & Hgap) (Hn & Hrun' & Hgap').
  destruct (Z.lt_trichotomy k n) as [Hlt|[Heq|Hgt]]; [|done|].
  - destruct Hgap. apply Hrun'. lia.
  - destruct Hgap'. apply Hrun. lia.
Qed.

Section Regular.

Hypothesis regular : RegularZone zone.

Lemma localDay_midnightOf (day : Z) :
  localDay zone (midnightOf zone day) = day.
Proof.
  unfold localDay. rewrite (proj1 regular).
  apply Z.div_mul. discriminate.
Qed.

Lemma midnightOf_lt (d1 d2 : Z) :
  d1 < d2 -> midnightOf zone d1 < midnightOf zone d2.
Proof.
  intros Hlt.
  destruct (Z.lt_ge_cases (midnightOf zone d1) (midnightOf zone d2))
    as [|Hge]; [done|].
  apply (proj2 regular) in Hge. rewrite !localDay_midnightOf in Hge. lia.
Qed.

Lemma midnightOf_inj (d1 d2 : Z) :
  midnightOf zone d1 = midnightOf zone d2 -> d1 = d2.
Proof.
  intros Heq. apply (f_equal (localDay zone)) in Heq.
  by rewrite !localDay_midnightOf in Heq.
Qed.

(** [setDate(getDate() - 1)] at 0:00 of a day is 0:00 of the day before. *)
Lemma setDatePrevious_midnightOf (day : Z) :
  setDatePrevious zone (midnightOf zone day) = midnightOf zone (day - 1).
Proof.
  unfold setDatePrevious. rewrite (proj1 regular).
  unfold midnightOf. f_equal. lia.
Qed.

(** On a list sorted latest first, the loop adds to the streak the length of
    the run of days, ending at [today], on each of which a session
    started. *)
Lemma streakLoop_spec sessions :
  StronglySorted latestFirst sessions ->
  forall streakDays today,
  exists k,
    streakLoop zone sessions streakDays (midnightOf zone today)
    = streakDays + k
    /\ streakRun zone sessions today k.
Proof.
  induction 1 as [|s l Hl IH Hall]; intros streakDays today;
    cbn [streakLoop].
  - exists 0. split; [lia|]. split; [lia|]. split; [lia|].
    intros (s & Hs & _). by apply elem_of_nil in Hs.
  - rewrite setHoursZero_midnightOf.
    destruct (Z.eqb_spec (midnightOf zone (localDay zone (startTime s)))
                         (midnightOf zone today)) as [Heq|Hne].
    + apply midnightOf_inj in Heq.
      rewrite setDatePrevious_midnightOf.
      destruct (IH (streakDays + 1) (today - 1))
        as (k & -> & Hk & Hrun & Hgap).
      exists (k + 1). split; [lia|]. split; [lia|]. split.
      * intros i Hi. destruct (decide (i = 0)) as [->|Hi0].
        -- exists s. split; [apply elem_of_cons; by left|lia].
        -- destruct (Hrun (i - 1)) as (s' & Hs' & Hday); [lia|].
           exists s'. split; [apply elem_of_cons; by right|lia].
      * intros (s' & Hs' & Hday). apply elem_of_cons in Hs' as [->|Hs'].
        -- lia.
        -- apply Hgap. exists s'. split; [done|lia].
    + assert (localDay zone (startTime s) ≠ today) as Hday
          by (intros Heq; by rewrite Heq in Hne).
      destruct (Z.ltb_spec (midnightOf zone (localDay zone (startTime s)))
                           (midnightOf zone today)) as [Hlt|Hge].
      * assert (localDay zone (startTime s) < today) as Hbefore.
        { destruct (Z.lt_ge_cases (localDay zone (startTime s)) today)
            as [|Hle]; [done|].
          assert (today < localDay zone (startTime s)) as Hafter by lia.
          apply midnightOf_lt in Hafter. lia. }
        exists 0. split; [lia|]. split; [lia|]. split; [lia|].
        intros (s' & Hs' & Hday').
        apply elem_of_cons in Hs' as [->|Hs']; [lia|].
        rewrite Forall_forall in Hall. specialize (Hall s' Hs').
        apply (proj2 regular) in Hall. lia.
      * assert (today < localDay zone (startTime s)) as Hafter.
        { destruct (Z.lt_ge_cases today (localDay zone (startTime s)))
            as [|Hle]; [done|].
          assert (localDay zone (startTime s) < today) as Hbefore by lia.
          apply midnightOf_lt in Hbefore. lia. }
        destruct (IH streakDays today) as (k & -> & Hk & Hrun & Hgap).
        exists k. split; [done|]. split; [done|]. split.
        -- intros i Hi. destruct (Hrun i Hi) as (s' & Hs' & Hday').
           exists s'. split; [apply elem_of_cons; by right|done].
        -- intros (s' & Hs' & Hday'). apply elem_of_cons in Hs' as [->|Hs'].
           ++ lia.
           ++ apply Hgap. by exists s'.
Qed.

(** In a regular zone the streak of [getStats] is the run of days that ends
    on the day of [streakNow]. *)
Lemma getStats_streakRun filterNow streakNow period history :
  streakRun zone (getFilteredSessions filterNow period history)
            (localDay zone streakNow)
            (streakDays (getStats zone filterNow streakNow period history)).
Proof.
  rewrite streakDays_getStats, setHoursZero_midnightOf.
  set (sessions := getFilteredSessions filterNow period history).
  destruct (streakLoop_spec _ (sort_latestFirst sessions) 0
                            (localDay zone streakNow))
    as (k & -> & Hk & Hrun & Hgap).
  rewrite Z.add_0_l. split; [done|]. split.
  - intros i Hi. apply onLocalDay_sort. by apply Hrun.
  - intros Hon. apply Hgap. by apply onLocalDay_sort.
Qed.

End Regular.

End Statistics.

(** A zone of one offset is regular. *)
Lemma fixedOffset_regular (tz : Z) : RegularZone (fixedOffset tz).
Proof.
  pose proof msPerDay_pos as HD. split.
  - intros day. unfold midnightOf, LocalTime, UTC. simpl. lia.
  - intros t1 t2 Hle. unfold localDay, LocalTime. simpl.
    apply Z.div_le_mono; lia.
Qed.

(** New York in 2026 is regular: its clocks change at 2:00. *)
Lemma newYork2026_regular : RegularZone newYork2026.
Proof.
  split.
  - intros day.
    unfold midnightOf, LocalTime, UTC, newYork2026, hour, msPerDay.
    cbn [offsetAtUTC offsetAtLocal].
    repeat match goal with
           | |- context [?a <? ?b] => destruct (Z.ltb_spec a b)
           end; lia.
  - intros t1 t2 Hle.
    unfold localDay, LocalTime, newYork2026, hour, msPerDay.
    cbn [offsetAtUTC].
    repeat match goal with
           | |- context [?a <? ?b] => destruct (Z.ltb_spec a b)
           end; Z.div_mod_to_equations; lia.
Qed.

Example streak_three_days :
  streakDays (getStats utc oneAM oneAM all [sessionTwoDaysAgo; sessionToday; sessionYesterday]) = 3.
Proof. vm_compute. reflexivity. Qed.

Example streak_gap_yesterday :
  streakDays (getStats utc oneAM oneAM all [sessionTwoDaysAgo; sessionToday]) = 1.
Proof. vm_compute. reflexivity. Qed.

Example streak_none_today :
  streakDays (getStats utc oneAM oneAM all [sessionTwoDaysAgo; sessionYesterday]) = 0.
Proof. vm_compute. reflexivity. Qed.

Example streak_two_sessions_same_day :
  streakDays (getStats utc oneAM oneAM all [sessionToday; sessionYesterday; sessionToday]) = 2.
Proof. vm_compute. reflexivity. Qed.

(** On the day of 25 hours in New York the streak still counts the day
    before. *)
Example streak_new_york_long_day :
  streakDays (getStats newYork2026 newYorkSundayNight newYorkSundayNight all
                [newYorkSaturday; newYorkSunday]) = 2.
Proof. vm_compute. reflexivity. Qed.

(** The steps of the loop in Cairo on 24 April 2026: [setHours] puts the
    clock and the session of the day at 1:00, the first instant of the day;
    [setDate] goes back to 1:00 of 23 April, an hour after the 0:00 at which
    [setHours] puts the session of that day. *)
Example cairo_loop_steps :
  setHoursZero cairo2026 cairoFridayMorning = 1776981600000
  /\ setHoursZero cairo2026 (startTime cairoFriday) = 1776981600000
  /\ setDatePrevious cairo2026 1776981600000 = 1776898800000
  /\ setHoursZero cairo2026 (startTime cairoThursday) = 1776895200000.
Proof. vm_compute. done. Qed.

(** C5 (the code departs from it). In Cairo on 24 April 2026, the day on
    which the clocks skip 0:00, with one session on 23 April and one on 24
    April, the run of days with a session that ends today has length 2, and
    [getStats] returns a streak of 1, which is not the length of such a run:
    the day before the one counted day has a session. *)
Theorem C5_streak_skipped_midnight :
  let history := [cairoFriday; cairoThursday] in
  let sessions := getFilteredSessions cairoFridayMorning all history in
  let today := localDay cairo2026 cairoFridayMorning in
  streakDays
    (getStats cairo2026 cairoFridayMorning cairoFridayMorning all history)
  = 1
  /\ streakRun cairo2026 sessions today 2
  /\ ~ streakRun cairo2026 sessions today 1.
Proof.
  intros history sessions today.
  assert (sessions = [cairoFriday; cairoThursday]) as -> by reflexivity.
  assert (today = 20567) as -> by reflexivity.
  assert (onLocalDay cairo2026 [cairoFriday; cairoThursday] 20567) as Hfri.
  { exists cairoFriday. split; [apply list_elem_of_here|reflexivity]. }
  assert (onLocalDay cairo2026 [cairoFriday; cairoThursday] 20566) as Hthu.
  { exists cairoThursday.
    split; [apply list_elem_of_further, list_elem_of_here|reflexivity]. }
  split; [vm_compute; reflexivity|]. split.
  - split; [lia|]. split.
    + intros i Hi. assert (i = 0 \/ i = 1) as [-> | ->] by lia; done.
    + intros (s & Hs & Hday).
      apply elem_of_cons in Hs as [->|Hs]; [vm_compute in Hday; lia|].
      apply list_elem_of_singleton in Hs as ->. vm_compute in Hday. lia.
  - intros (_ & _ & Hgap). by apply Hgap.
Qed.



(** The double sums of [meanAccuracy] do not follow the exact ones:
    0.49999999999999994 + 0.5 is the double 1, and the mean 0.5 is shown as
    1, where the exact mean is below one half; the mean of
    58.333333333333336 and 66.66666666666666 is the double 62.5 and is shown
    as 63, where the exact mean is below 62.5. *)
Example average_of_inexact_sums :
  averageAccuracy (getStats utc oneAM oneAM all [sessionBelowHalf; sessionHalf])
  = Integer 1
  /\ averageAccuracy
       (getStats utc oneAM oneAM all [sessionFiftyEight; sessionSixtySix])
     = Integer 63.
Proof. vm_compute. done. Qed.



(** ** Navigation between verses *)

Section NavigationFacts.

Import Navigation.

Implicit Types (surahs : gmap Z SurahInfo).

(** [getNextVerse] returns null exactly for a chapter that is not loaded and
    at or past the last verse of chapter 114 or of a later one; otherwise it
    gives the next verse of the chapter or verse 1 of the next chapter, which
    is never a chapter past 114 unless the given chapter already was. *)
Theorem getNextVerse_cases surahs (surahNumber verseNumber : Z) :
  (getNextVerse surahs surahNumber verseNumber = None
   <-> getSurahInfo surahs surahNumber = None
       \/ exists info, getSurahInfo surahs surahNumber = Some info
                       /\ totalVerses info <= verseNumber
                       /\ 114 <= surahNumber)
  /\ (forall next,
         getNextVerse surahs surahNumber verseNumber = Some next ->
         (surah next = surahNumber /\ verse next = verseNumber + 1
          \/ surah next = surahNumber + 1 /\ verse next = 1)
         /\ surah next <= Z.max surahNumber 114).
Proof.
  unfold getNextVerse.
  destruct (getSurahInfo surahs surahNumber) as [info|] eqn:Hinfo.
  - destruct (decide (verseNumber < totalVerses info)) as [Hlt|Hge].
    + split.
      * split; [done|]. intros [?|(info' & Heq & Hle & _)]; [done|].
        injection Heq as <-. lia.
      * intros next [= <-]. simpl. split; [by left|lia].
    + destruct (decide (surahNumber + 1 <= 114)) as [Hs|Hs].
      * split.
        -- split; [done|]. intros [?|(info' & _ & _ & H114)]; [done|lia].
        -- intros next [= <-]. simpl. split; [by right|lia].
      * split; [|done]. split; [|done]. intros _. right.
        exists info. split; [done|]. lia.
  - split; [|done]. split; [by left|done].
Qed.

(** [getPreviousVerse] returns null exactly at a verse number of 1 or less
    whose preceding chapter does not exist or is not loaded; above verse 1 it
    steps back inside the chapter without looking the chapter up. *)
Theorem getPreviousVerse_cases surahs (surahNumber verseNumber : Z) :
  (getPreviousVerse surahs surahNumber verseNumber = None
   <-> verseNumber <= 1
       /\ (surahNumber <= 1 \/ getSurahInfo surahs (surahNumber - 1) = None))
  /\ (1 < verseNumber ->
      getPreviousVerse surahs surahNumber verseNumber
      = Some {| surah := surahNumber; verse := verseNumber - 1 |}).
Proof.
  unfold getPreviousVerse.
  destruct (decide (verseNumber > 1)) as [Hv|Hv].
  - split; [|done]. split; [done|]. lia.
  - split; [|lia].
    destruct (decide (surahNumber - 1 >= 1)) as [Hs|Hs].
    + destruct (getSurahInfo surahs (surahNumber - 1)) as [info|] eqn:Hinfo.
      * split; [done|]. intros [_ [?|?]]; [lia|done].
      * split; [|done]. intros _. split; [lia|by right].
    + split; [|done]. intros _. split; [lia|left; lia].
Qed.

Lemma getPreviousVerse_cases_witness :
  getPreviousVerse NavigationSamples.defaultSurahs 9 3
  = Some {| surah := 9; verse := 2 |}.
Proof.
  apply getPreviousVerse_cases. lia.
Defined.

(** Stepping forward and then back returns to the starting verse, for a
    verse between 1 and the verse count of a loaded chapter numbered 1 or
    more. *)
Theorem getPreviousVerse_getNextVerse surahs (surahNumber verseNumber : Z)
    (info : SurahInfo) (next : VerseRef) :
  getSurahInfo surahs surahNumber = Some info ->
  1 <= surahNumber ->
  1 <= verseNumber <= totalVerses info ->
  getNextVerse surahs surahNumber verseNumber = Some next ->
  getPreviousVerse surahs (surah next) (verse next)
  = Some {| surah := surahNumber; verse := verseNumber |}.
Proof.
  intros Hinfo Hs Hv. unfold getNextVerse. rewrite Hinfo.
  destruct (decide (verseNumber < totalVerses info)) as [Hlt|Hge].
  - intros [= <-]. unfold getPreviousVerse. cbn [surah verse].
    destruct (decide (verseNumber + 1 > 1)); [|lia].
    do 2 f_equal. lia.
  - destruct (decide (surahNumber + 1 <= 114)); [|done].
    intros [= <-]. unfold getPreviousVerse. cbn [surah verse].
    destruct (decide (1 > 1)); [lia|].
    destruct (decide (surahNumber + 1 - 1 >= 1)); [|lia].
    replace (surahNumber + 1 - 1) with surahNumber by lia.
    rewrite Hinfo. do 2 f_equal. lia.
Qed.

Lemma getPreviousVerse_getNextVerse_witness :
  getPreviousVerse NavigationSamples.defaultSurahs 2 1
  = Some {| surah := 1; verse := 7 |}.
Proof.
  apply (getPreviousVerse_getNextVerse NavigationSamples.defaultSurahs 1 7
           NavigationSamples.alFatiha {| surah := 2; verse := 1 |}).
  - vm_compute. reflexivity.
  - lia.
  - vm_compute. split; discriminate.
  - vm_compute. reflexivity.
Defined.

(** Stepping back and then forward returns to the starting verse, for a
    verse numbered 1 or more of a chapter numbered at most 114 that, when the
    verse is not the first, is loaded and has that many verses. *)
Theorem getNextVerse_getPreviousVerse surahs (surahNumber verseNumber : Z)
    (previous : VerseRef) :
  1 <= verseNumber ->
  surahNumber <= 114 ->
  (1 < verseNumber ->
   exists info, getSurahInfo surahs surahNumber = Some info
                /\ verseNumber <= totalVerses info) ->
  getPreviousVerse surahs surahNumber verseNumber = Some previous ->
  getNextVerse surahs (surah previous) (verse previous)
  = Some {| surah := surahNumber; verse := verseNumber |}.
Proof.
  intros Hv Hs Hin. unfold getPreviousVerse.
  destruct (decide (verseNumber > 1)) as [Hgt|Hle].
  - intros [= <-]. destruct Hin as (info & Hinfo & Hmax); [lia|].
    unfold getNextVerse. cbn [surah verse]. rewrite Hinfo.
    destruct (decide (verseNumber - 1 < totalVerses info)); [|lia].
    do 2 f_equal. lia.
  - destruct (decide (surahNumber - 1 >= 1)); [|done].
    destruct (getSurahInfo surahs (surahNumber - 1)) as [info|] eqn:Hinfo;
      [|done].
    intros [= <-]. unfold getNextVerse. cbn [surah verse]. rewrite Hinfo.
    destruct (decide (totalVerses info < totalVerses info)); [lia|].
    destruct (decide (surahNumber - 1 + 1 <= 114)); [|lia].
    f_equal. f_equal; lia.
Qed.

Lemma getNextVerse_getPreviousVerse_witness :
  getNextVerse NavigationSamples.defaultSurahs 1 7
  = Some {| surah := 2; verse := 1 |}.
Proof.
  apply (getNextVerse_getPreviousVerse NavigationSamples.defaultSurahs 2 1
           {| surah := 1; verse := 7 |}).
  - lia.
  - lia.
  - lia.
  - vm_compute. reflexivity.
Defined.

Lemma fold_push_omap {A B} (f : A -> option B) (l : list A) (acc : list B) :
  fold_left (fun out x => match f x with
                          | Some y => out ++ [y]
                          | None => out
                          end) l acc
  = acc ++ omap f l.
Proof.
  revert acc; induction l as [|x l IH]; intros acc; csimpl.
  - by rewrite app_nil_r.
  - rewrite IH. destruct (f x); csimpl; [by rewrite <- app_assoc|done].
Qed.

Lemma length_omap_le {A B} (f : A -> option B) (l : list A) :
  (length (omap f l) <= length l)%nat.
Proof.
  induction l as [|x l IH]; csimpl; [done|].
  destruct (f x); csimpl; lia.
Qed.

(** [getSurahVerses] lists, in ascending verse number, the stored verses of
    the chapter numbered from 1 to the chapter's verse count: nothing for a
    chapter that is not loaded, never more verses than the count, and a verse
    missing from the store is skipped, not reported. *)
Theorem getSurahVerses_stored (this : QuranDatabaseClass) surahs
    (surahNumber : Z) :
  match getSurahInfo surahs surahNumber with
  | None => getSurahVerses this surahs surahNumber = []
  | Some info =>
      getSurahVerses this surahs surahNumber
      = omap (getVerse this surahNumber) (seqZ 1 (totalVerses info))
      /\ (length (getSurahVerses this surahs surahNumber)
          <= Z.to_nat (totalVerses info))%nat
      /\ (forall verse,
             verse ∈ getSurahVerses this surahs surahNumber
             <-> exists i, 1 <= i <= totalVerses info
                           /\ getVerse this surahNumber i = Some verse)
  end.
Proof.
  unfold getSurahVerses.
  destruct (getSurahInfo surahs surahNumber) as [info|]; [|done].
  rewrite fold_push_omap, app_nil_l. split; [done|]. split.
  - etransitivity; [apply length_omap_le|]. by rewrite length_seqZ.
  - intros verse. rewrite list_elem_of_omap. split.
    + intros (i & Hi & Hget). exists i. split; [|done].
      apply elem_of_seqZ in Hi. lia.
    + intros (i & Hi & Hget). exists i. split; [|done].
      apply elem_of_seqZ. lia.
Qed.

End NavigationFacts.

(** ** Tokens, similarity and whole-verse results *)

Section TokenFacts.

Implicit Types (text cur : list N).

Lemma concat_splitLoop text : forall cur inSep,
  concat (splitLoop text cur inSep)
  = rev cur ++ filter (fun c => isWhiteSpace c = false) text.
Proof.
  induction text as [|c rest IH]; intros cur inSep; simpl.
  - by rewrite !app_nil_r.
  - destruct (isWhiteSpace c) eqn:Hc.
    + rewrite filter_cons_False by congruence.
      destruct inSep; simpl; rewrite IH; [done|]. by simpl.
    + rewrite filter_cons_True by done. rewrite IH. simpl.
      by rewrite <- app_assoc.
Qed.

Lemma splitLoop_no_space text : forall cur inSep,
  Forall (fun c => isWhiteSpace c = false) cur ->
  Forall (Forall (fun c => isWhiteSpace c = false))
         (splitLoop text cur inSep).
Proof.
  induction text as [|c rest IH]; intros cur inSep Hcur; simpl.
  - constructor; [|constructor]. by apply Forall_rev.
  - destruct (isWhiteSpace c) eqn:Hc.
    + destruct inSep; [by apply IH|].
      constructor; [by apply Forall_rev|]. apply IH. constructor.
    + apply IH. by constructor.
Qed.

Lemma concat_filter_nonempty (pieces : list (list N)) :
  concat (filter (fun word => (0 < length word)%nat) pieces) = concat pieces.
Proof.
  induction pieces as [|w l IH]; [done|].
  destruct w as [|c w].
  - rewrite filter_cons_False by (simpl; lia). done.
  - rewrite filter_cons_True by (simpl; lia). simpl. by rewrite IH.
Qed.

End TokenFacts.

Lemma splitWords_no_space (recitedText : list N) :
  Forall (fun word => word ≠ []
                      /\ Forall (fun c => isWhiteSpace c = false) word)
         (splitWords recitedText).
Proof.
  unfold splitWords, splitWhiteSpace. apply Forall_forall.
  intros word Hword. apply list_elem_of_filter in Hword as [Hlen Hin].
  split; [by destruct word; [simpl in Hlen; lia|]|].
  pose proof (splitLoop_no_space recitedText [] false ltac:(constructor))
    as H.
  rewrite Forall_forall in H. by apply H.
Qed.

Lemma concat_splitWords (recitedText : list N) :
  concat (splitWords recitedText)
  = filter (fun c => isWhiteSpace c = false) recitedText.
Proof.
  unfold splitWords, splitWhiteSpace.
  by rewrite concat_filter_nonempty, concat_splitLoop.
Qed.

Lemma splitWords_blank (recitedText : list N) :
  Forall (fun c => isWhiteSpace c = true) recitedText ->
  splitWords recitedText = [].
Proof.
  intros Hall.
  assert (filter (fun c => isWhiteSpace c = false) recitedText = [])
    as Hfilter.
  { induction Hall as [|c l Hc _ IH]; [done|].
    rewrite filter_cons_False by congruence. done. }
  pose proof (concat_splitWords recitedText) as Hconcat.
  pose proof (splitWords_no_space recitedText) as Htokens.
  rewrite Hfilter in Hconcat.
  destruct (splitWords recitedText) as [|word rest]; [done|].
  apply Forall_cons in Htokens as [[Hne _] _].
  simpl in Hconcat. apply app_eq_nil in Hconcat as [? _]. done.
Qed.

(** The words of a recited text are not empty and hold no white space; put
    end to end they are the text without its white space; and there is no
    word exactly when the text is empty or all white space. *)
Theorem splitWords_tokens (recitedText : list N) :
  Forall (fun word => word ≠ []
                      /\ Forall (fun c => isWhiteSpace c = false) word)
         (splitWords recitedText)
  /\ concat (splitWords recitedText)
     = filter (fun c => isWhiteSpace c = false) recitedText
  /\ (splitWords recitedText = []
      <-> Forall (fun c => isWhiteSpace c = true) recitedText).
Proof.
  split; [apply splitWords_no_space|]. split; [apply concat_splitWords|].
  split; [|apply splitWords_blank].
  intros Hnil. pose proof (concat_splitWords recitedText) as Hconcat.
  rewrite Hnil in Hconcat. simpl in Hconcat.
  apply Forall_forall. intros c Hc.
  destruct (isWhiteSpace c) eqn:Hws; [done|].
  assert (c ∈ filter (fun c => isWhiteSpace c = false) recitedText) as Hin
      by (by apply list_elem_of_filter).
  rewrite <- Hconcat in Hin. by apply elem_of_nil in Hin.
Qed.

Section MoreSimilarity.

Implicit Types (a b : list N).

Lemma countMatches_sym a b n : countMatches a b n = countMatches b a n.
Proof.
  rewrite !countMatches_filter. do 2 f_equal.
  apply list_filter_iff. intros i. split; congruence.
Qed.

End MoreSimilarity.

(** The similarity does not depend on the order of its two arguments. *)
Theorem calculateSimilarity_sym (a b : list N) :
  calculateSimilarity a b = calculateSimilarity b a.
Proof.
  destruct (decide (a = b)) as [->|Hab]; [done|].
  unfold calculateSimilarity. rewrite (decide_False (P := a = b)) by done.
  rewrite (decide_False (P := b = a)) by congruence.
  destruct (decide (removeDiacritics a = removeDiacritics b)) as [Heq|Hne].
  - by rewrite (decide_True (P := removeDiacritics b = removeDiacritics a)).
  - rewrite (decide_False (P := removeDiacritics b = removeDiacritics a))
      by congruence.
    rewrite (Nat.max_comm (length (removeDiacritics b))).
    rewrite (Nat.min_comm (length (removeDiacritics b))).
    by rewrite (countMatches_sym (removeDiacritics b)).
Qed.

(** The similarity is 1 for identical strings only: two different strings
    score 0.9 when they differ by diacritics alone, and less than 1
    otherwise. *)
Theorem calculateSimilarity_one (a b : list N) :
  (calculateSimilarity a b == 1)%Q <-> a = b.
Proof.
  split.
  - intros Hone. destruct (decide (a = b)) as [|Hab]; [done|exfalso].
    destruct (decide (removeDiacritics a = removeDiacritics b)) as [Heq|Hne].
    + unfold calculateSimilarity in Hone.
      rewrite decide_False, decide_True in Hone by done. discriminate.
    + destruct (calculateSimilarity_unfold a b Hab Hne) as [Hsim Hmax].
      rewrite Hsim in Hone. clear Hsim.
      set (a' := removeDiacritics a) in *.
      set (b' := removeDiacritics b) in *.
      rewrite countMatches_positionalDistance in Hone.
      assert (positionalDistance a' b' = 0%nat) as Hzero.
      { set (M := Nat.max (length a') (length b')) in *.
        set (p := positionalDistance a' b') in *.
        assert (inject_Z (Z.of_nat M - Z.of_nat p)
                == inject_Z (Z.of_nat M))%Q as Hq.
        { assert (~ inject_Z (Z.of_nat M) == 0)%Q as HM.
          { intros H0. apply (inject_Z_injective (Z.of_nat M) 0) in H0. lia. }
          rewrite <- (Qmult_div_r (inject_Z (Z.of_nat M - Z.of_nat p))
                                  (inject_Z (Z.of_nat M))) by done.
          rewrite Hone. ring. }
        apply (inject_Z_injective (Z.of_nat M - Z.of_nat p) (Z.of_nat M))
          in Hq.
        lia. }
      apply Hne. apply list_eq. intros i.
      unfold positionalDistance in Hzero.
      apply length_zero_iff_nil in Hzero.
      destruct (decide (i < Nat.max (length a') (length b'))%nat)
        as [Hlt|Hge].
      * destruct (decide (a' !! i = b' !! i)) as [|Hdiff]; [done|exfalso].
        assert (i ∈ filter (fun i => a' !! i ≠ b' !! i)
                      (seq 0 (Nat.max (length a') (length b')))) as Hin.
        { apply list_elem_of_filter. split; [done|].
          apply elem_of_seq. lia. }
        rewrite Hzero in Hin. by apply elem_of_nil in Hin.
      * rewrite !lookup_ge_None_2 by lia. done.
  - intros ->. unfold calculateSimilarity. by rewrite decide_True.
Qed.

(** Stripping diacritics keeps the other code units in place: it goes
    through concatenation, leaves a text without diacritics as it is, and
    its result is a subsequence of the text. *)
Theorem removeDiacritics_keeps_letters (a b : list N) :
  removeDiacritics (a ++ b) = removeDiacritics a ++ removeDiacritics b
  /\ (Forall (fun c => c ∉ diacritics) a -> removeDiacritics a = a)
  /\ sublist (removeDiacritics a) a.
Proof.
  rewrite !removeDiacritics_filter. split; [apply filter_app|]. split.
  - apply filter_Forall_id.
  - apply sublist_filter.
Qed.

Lemma removeDiacritics_keeps_letters_witness :
  removeDiacritics [0x628; 0x633; 0x645]%N = [0x628; 0x633; 0x645]%N.
Proof.
  apply (removeDiacritics_keeps_letters [0x628; 0x633; 0x645]%N []).
  repeat constructor; vm_compute; intros H; inversion H; subst;
    repeat match goal with
           | H : _ ∈ _ :: _ |- _ => inversion H; subst; clear H
           | H : _ ∈ [] |- _ => inversion H
           end.
Defined.

Section WholeVerse.

Implicit Types (rw ews : list (list N)).

Lemma calculateSimilarity_same_letters (e r : list N) :
  removeDiacritics e = removeDiacritics r ->
  (7 # 10 <= calculateSimilarity e r)%Q.
Proof.
  intros Hsame. unfold calculateSimilarity.
  destruct (decide (e = r)); [discriminate|].
  rewrite decide_True by done. discriminate.
Qed.

Lemma forEachWord_accepted rw ews : forall index acc,
  (forall k e, ews !! k = Some e ->
               exists r, rw !! (index + k)%nat = Some r
                         /\ removeDiacritics e = removeDiacritics r) ->
  forEachWord rw index ews acc = acc.
Proof.
  induction ews as [|e rest IH]; intros index [ms miss] Hall;
    cbn [forEachWord]; [done|].
  destruct (Hall 0%nat e eq_refl) as (r & Hr & Hsame).
  rewrite Nat.add_0_r in Hr.
  assert (checkWord rw (ms, miss) e index = (ms, miss)) as ->.
  { unfold checkWord.
    pose proof (lookup_lt_Some _ _ _ Hr) as Hlt.
    rewrite decide_False by lia.
    rewrite (list_lookup_total_correct _ _ _ Hr).
    destruct (Qlt_le_dec (calculateSimilarity e r) (7 # 10)) as [Hlow|_];
      [|done].
    exfalso. apply (Qlt_not_le _ _ Hlow).
    by apply calculateSimilarity_same_letters. }
  apply IH. intros k e' He'.
  destruct (Hall (S k) e' He') as (r' & Hr' & Hsame').
  exists r'. split; [|done]. by rewrite Nat.add_succ_comm.
Qed.

Lemma forEachWord_silent ews : forall index ms (miss : list (list N)),
  forEachWord [] index ews (ms, miss)
  = (ms ++ imap (fun k w => {| type := omission; expected := Some w;
                               recited := None;
                               position := Z.of_nat (index + k);
                               severity := high |}) ews,
     miss ++ ews).
Proof.
  induction ews as [|w rest IH]; intros index ms miss; cbn [forEachWord].
  - by rewrite !app_nil_r.
  - unfold checkWord at 1. rewrite decide_True by (simpl; lia).
    rewrite IH, <- !app_assoc. cbn [imap app]. rewrite Nat.add_0_r.
    do 3 f_equal. apply imap_ext. intros k w' _. simpl.
    do 2 f_equal. lia.
Qed.

Lemma no_pronunciation_in_omissions ews (index : nat) :
  filter (fun m => type m = pronunciation)
         (imap (fun k w => {| type := omission; expected := Some w;
                              recited := None;
                              position := Z.of_nat (index + k);
                              severity := high |}) ews) = [].
Proof.
  revert index; induction ews as [|w rest IH]; intros index; [done|].
  cbn [imap]. rewrite filter_cons_False by (simpl; discriminate).
  rewrite <- (IH (S index)). f_equal. apply imap_ext. intros k w' _. simpl.
  do 2 f_equal. lia.
Qed.

End WholeVerse.

(** A recitation whose words are, one for one, the words of the verse up to
    diacritics is accepted in full: no mistake, no missing or extra word,
    accuracy 100 and a valid result. *)
Theorem validateRecitation_same_letters (this : QuranDatabaseClass)
    (surahNumber verseNumber : Z) (verse : VerseInfo) (recitedText : list N) :
  getVerse this surahNumber verseNumber = Some verse ->
  words verse ≠ [] ->
  Forall2 (fun e r => removeDiacritics e = removeDiacritics r)
          (words verse) (splitWords recitedText) ->
  let r := validateRecitation this surahNumber verseNumber recitedText in
  mistakes r = [] /\ missingWords r = [] /\ extraWords r = []
  /\ isValid r = true
  /\ exists q, accuracy r = Finite q /\ (q == 100)%Q.
Proof.
  intros Hverse Hwords Hsame. unfold validateRecitation. rewrite Hverse.
  set (ews := words verse) in *. set (rw := splitWords recitedText) in *.
  pose proof (Forall2_length _ _ _ Hsame) as Hlen.
  unfold validateWords. rewrite (forEachWord_accepted rw ews 0 ([], [])).
  2:{ intros k e He.
      destruct (Forall2_lookup_l _ _ _ _ _ Hsame He) as (r & Hr & Her).
      by exists r. }
  rewrite decide_False by lia. cbn [isValid accuracy mistakes missingWords
                                    extraWords filter length].
  rewrite filter_nil. cbn [length].
  assert (0 < length ews)%nat as Hpos by (destruct ews; [done|simpl; lia]).
  unfold divide. rewrite decide_False by lia. cbn [times geq].
  assert (inject_Z (Z.of_nat (length ews) - Z.of_nat 0 - Z.of_nat 0)
          / inject_Z (Z.of_nat (length ews)) * inject_Z 100 == 100)%Q as Hq.
  { rewrite !Z.sub_0_r. change (inject_Z 100) with 100%Q. field.
    intros H0. apply (inject_Z_injective (Z.of_nat (length ews)) 0) in H0.
    lia. }
  split; [done|]. split; [done|]. split; [done|]. split.
  - apply Qle_bool_iff. rewrite Hq. discriminate.
  - eexists. split; [reflexivity|exact Hq].
Qed.

Lemma validateRecitation_same_letters_witness :
  mistakes (validateRecitation db 1 1
              ([0x628; 0x633; 0x645; 32]%N ++ allahi ++ [32%N] ++ arrahmani
               ++ [32%N] ++ arrahimi)) = [].
Proof.
  destruct (validateRecitation_same_letters db 1 1 verse_1_1
              ([0x628; 0x633; 0x645; 32]%N ++ allahi ++ [32%N] ++ arrahmani
               ++ [32%N] ++ arrahimi)) as (Hnone & _).
  - vm_compute. reflexivity.
  - discriminate.
  - vm_compute. repeat constructor.
  - exact Hnone.
Defined.

(** A recitation without any word (an empty or all-blank text) of a verse
    with at least one word reports every word of the verse as missing, one
    omission of severity high per word in verse order, accuracy 0 and an
    invalid result. *)
Theorem validateRecitation_no_words (this : QuranDatabaseClass)
    (surahNumber verseNumber : Z) (verse : VerseInfo) (recitedText : list N) :
  getVerse this surahNumber verseNumber = Some verse ->
  words verse ≠ [] ->
  Forall (fun c => isWhiteSpace c = true) recitedText ->
  let r := validateRecitation this surahNumber verseNumber recitedText in
  mistakes r
  = imap (fun k w => {| type := omission; expected := Some w;
                        recited := None; position := Z.of_nat k;
                        severity := high |}) (words verse)
  /\ missingWords r = words verse /\ extraWords r = []
  /\ isValid r = false
  /\ exists q, accuracy r = Finite q /\ (q == 0)%Q.
Proof.
  intros Hverse Hwords Hblank. unfold validateRecitation. rewrite Hverse.
  rewrite (splitWords_blank recitedText Hblank).
  set (ews := words verse) in *.
  unfold validateWords. rewrite forEachWord_silent.
  rewrite decide_False by (simpl; lia).
  cbn [isValid accuracy mistakes missingWords extraWords app].
  rewrite (no_pronunciation_in_omissions ews 0). cbn [length].
  assert (0 < length ews)%nat as Hpos by (destruct ews; [done|simpl; lia]).
  unfold divide. rewrite decide_False by lia. cbn [times geq].
  assert (inject_Z (Z.of_nat (length ews) - Z.of_nat (length ews)
                    - Z.of_nat 0)
          / inject_Z (Z.of_nat (length ews)) * inject_Z 100 == 0)%Q as Hq.
  { replace (Z.of_nat (length ews) - Z.of_nat (length ews) - Z.of_nat 0)
      with 0 by lia.
    unfold Qdiv. by rewrite !Qmult_0_l. }
  split; [done|]. split; [done|]. split; [done|]. split.
  - destruct (Qle_bool _ _) eqn:Hle; [|done].
    apply Qle_bool_iff in Hle. rewrite Hq in Hle.
    unfold Qle in Hle. simpl in Hle. lia.
  - eexists. split; [reflexivity|exact Hq].
Qed.

Lemma validateRecitation_no_words_witness :
  missingWords (validateRecitation db 1 1 [32; 10; 32]%N)
  = [bismi; allahi; arrahmani; arrahimi].
Proof.
  destruct (validateRecitation_no_words db 1 1 verse_1_1 [32; 10; 32]%N)
    as (_ & Hmissing & _).
  - vm_compute. reflexivity.
  - discriminate.
  - repeat constructor.
  - exact Hmissing.
Defined.

(** ** The session state under every action *)

Section SessionActions.

Implicit Types (st : ProviderState).

Lemma act_history_closed st (a : SessionUpdates.Action) :
  (length (sessionHistory st) <= 50)%nat
  /\ Forall (fun s => is_Some (endTime s)) (sessionHistory st) ->
  (length (sessionHistory (SessionUpdates.act st a)) <= 50)%nat
  /\ Forall (fun s => is_Some (endTime s))
            (sessionHistory (SessionUpdates.act st a)).
Proof.
  intros [Hlen Hclosed].
  assert (forall dateNow msNow st',
             sessionHistory st' = sessionHistory st ->
             (length (sessionHistory (endSession dateNow msNow st')) <= 50)%nat
             /\ Forall (fun s => is_Some (endTime s))
                       (sessionHistory (endSession dateNow msNow st')))
    as Hend.
  { intros dateNow msNow st' Hsame. unfold endSession.
    destruct (currentSession st') as [current|]; [|by rewrite Hsame].
    cbn [sessionHistory]. rewrite Hsame. split.
    - rewrite length_take. lia.
    - apply Forall_take. constructor; [by eexists|done]. }
  destruct a as [dateNow msNow enabled|msNow dateNow|dateNow msNow|updates|];
    cbn [SessionUpdates.act].
  - unfold SessionUpdates.setBikeMode.
    destruct (negb enabled && _); [by apply Hend|done].
  - done.
  - by apply Hend.
  - unfold SessionUpdates.updateSession.
    by destruct (currentSession st).
  - split; [simpl; lia|constructor].
Qed.

End SessionActions.

(** Whatever the provider's functions are called with and in whatever order,
    starting from an empty history, the history holds at most 50 sessions and
    each of them is closed (its end time is set). *)
Theorem runActions_history_closed (actions : list SessionUpdates.Action) :
  (length (sessionHistory (SessionUpdates.runActions actions)) <= 50)%nat
  /\ Forall (fun s => is_Some (endTime s))
            (sessionHistory (SessionUpdates.runActions actions)).
Proof.
  unfold SessionUpdates.runActions.
  assert ((length (sessionHistory initialState) <= 50)%nat
          /\ Forall (fun s => is_Some (endTime s))
                    (sessionHistory initialState)) as Hinit
      by (split; [simpl; lia|constructor]).
  revert Hinit. generalize initialState.
  induction actions as [|a actions IH]; intros st Hst; [done|].
  cbn [fold_left]. by apply IH, act_history_closed.
Qed.

(** Switching bike mode off leaves no open session: the session that was
    open is closed and put at the head of the history.  Switching it on
    touches neither the open session nor the history. *)
Theorem setBikeMode_closes (dateNow msNow : Z) (st : ProviderState) :
  let off := SessionUpdates.setBikeMode dateNow msNow false st in
  let on := SessionUpdates.setBikeMode dateNow msNow true st in
  bikeMode off = false
  /\ currentSession off = None
  /\ sessionHistory off
     = match currentSession st with
       | Some current =>
           endedSession dateNow msNow current :: take 49 (sessionHistory st)
       | None => sessionHistory st
       end
  /\ on = {| bikeMode := true; currentSession := currentSession st;
             sessionHistory := sessionHistory st |}.
Proof.
  unfold SessionUpdates.setBikeMode, endSession. cbn [negb andb].
  destruct (currentSession st) as [current|] eqn:Hcur.
  - rewrite bool_decide_eq_true_2 by (by eexists). cbn.
    rewrite ?Hcur. done.
  - rewrite bool_decide_eq_false_2 by (by intros [? ?]). cbn.
    rewrite ?Hcur. done.
Qed.

(** Starting a session and ending it archives that session alone, with the
    clock readings of the two calls: a session that was open before the
    start is dropped without being archived. *)
Theorem endSession_startSession (msStart dateStart dateEnd msEnd : Z)
    (st : ProviderState) :
  endSession dateEnd msEnd (startSession msStart dateStart st)
  = {| bikeMode := bikeMode st;
       currentSession := None;
       sessionHistory :=
         {| id := ofInt msStart; startTime := dateStart;
            endTime := Some dateEnd; versesRecited := 0;
            pausesDetected := 0; mistakesDetected := 0;
            totalDuration := msEnd - dateStart;
            BikeModeContext.averageAccuracy := 0;
            surahsCompleted := [] |} :: take 49 (sessionHistory st) |}.
Proof. reflexivity. Qed.

(** Two calls of [endSession].  A call made in the render whose state is
    [st], before any other, sets what [endSession] gives.  A second call
    made after the next render finds no open session and changes nothing.
    A second call made in the same render reads the open session and the
    history of that render again: its entry takes the place of the first
    one, and the history holds the session once, ended at the second
    call. *)
Theorem endSession_twice (dateNow msNow dateNow' msNow' : Z)
    (st : ProviderState) :
  SessionUpdates.endSessionFrom dateNow msNow st st
  = endSession dateNow msNow st
  /\ endSession dateNow' msNow' (endSession dateNow msNow st)
     = endSession dateNow msNow st
  /\ SessionUpdates.endSessionFrom dateNow' msNow' st
       (SessionUpdates.endSessionFrom dateNow msNow st st)
     = endSession dateNow' msNow' st.
Proof.
  unfold SessionUpdates.endSessionFrom, endSession.
  destruct (currentSession st) as [current|] eqn:Hcur; cbn; by rewrite ?Hcur.
Qed.

(** An update of the open session is what the next [endSession] archives;
    with no open session the update is dropped. *)
Theorem endSession_updateSession (dateNow msNow : Z)
    (updates : SessionUpdates.Partial) (st : ProviderState) :
  match currentSession st with
  | Some current =>
      sessionHistory
        (endSession dateNow msNow (SessionUpdates.updateSession updates st))
      = endedSession dateNow msNow (SessionUpdates.spread current updates)
        :: take 49 (sessionHistory st)
  | None => SessionUpdates.updateSession updates st = st
  end.
Proof.
  unfold SessionUpdates.updateSession.
  destruct (currentSession st) as [current|] eqn:Hcur; [|done].
  reflexivity.
Qed.

(** ** Periods, streaks and achievements *)

Section PeriodFacts.

Variable zone : TimeZone.

Implicit Types (sessions : list BikeModeSession) (s : BikeModeSession).

Lemma sublist_filter_impl {A} (P Q : A -> Prop)
    `{!forall x, Decision (P x)} `{!forall x, Decision (Q x)} (l : list A) :
  (forall x, P x -> Q x) -> sublist (filter P l) (filter Q l).
Proof.
  intros Himpl. induction l as [|x l IH]; [constructor|].
  destruct (decide (P x)) as [HP|HP].
  - rewrite !filter_cons_True by auto. by constructor.
  - rewrite (filter_cons_False P) by done.
    destruct (decide (Q x)).
    + rewrite filter_cons_True by done. by constructor.
    + by rewrite filter_cons_False.
Qed.

(** A session kept for a window of [days] days started at most that many
    days before the clock reading. *)
Lemma Qle_bool_daysDiff (now start days : Z) :
  Qle_bool (inject_Z (now - start) / inject_Z msPerDay) (inject_Z days) = true
  <-> now - start <= days * msPerDay.
Proof.
  rewrite Qle_bool_iff. unfold Qle, Qdiv, Qmult, Qinv, inject_Z, msPerDay.
  simpl. lia.
Qed.

Lemma inPeriod_week now s :
  inPeriod now week s = true <-> now - startTime s <= 7 * msPerDay.
Proof. apply (Qle_bool_daysDiff now (startTime s) 7). Qed.

Lemma inPeriod_month now s :
  inPeriod now month s = true <-> now - startTime s <= 30 * msPerDay.
Proof. apply (Qle_bool_daysDiff now (startTime s) 30). Qed.

(** The instant [n] days of 24 hours before [t] falls at most [n + m]
    calendar days before [t], when the offsets of the zone differ by at most
    [m] days. *)
Lemma localDay_days_before (t n m : Z) :
  (forall t1 t2, offsetAtUTC zone t1 - offsetAtUTC zone t2 <= m * msPerDay) ->
  localDay zone t - n - m <= localDay zone (t - n * msPerDay).
Proof.
  intros Hoffsets. pose proof msPerDay_pos as HD.
  specialize (Hoffsets t (t - n * msPerDay)).
  unfold localDay, LocalTime.
  replace (((t + offsetAtUTC zone t) / msPerDay) - n - m)
    with ((t + offsetAtUTC zone t + (- (n + m)) * msPerDay) / msPerDay)
    by (rewrite Z.div_add by lia; lia).
  apply Z.div_le_mono; lia.
Qed.

Lemma length_insertSorted {A} (compareFn : A -> A -> Z) (x : A) (l : list A) :
  length (insertSorted compareFn x l) = S (length l).
Proof.
  induction l as [|y l IH]; simpl; [done|].
  destruct (compareFn x y <=? 0); simpl; [done|]. by rewrite IH.
Qed.

Lemma length_sort {A} (compareFn : A -> A -> Z) (l : list A) :
  length (sort compareFn l) = length l.
Proof.
  induction l as [|x l IH]; simpl; [done|].
  by rewrite length_insertSorted, IH.
Qed.

Lemma streakLoop_le_length sessions : forall streakDays currentDate,
  streakDays <= streakLoop zone sessions streakDays currentDate
             <= streakDays + Z.of_nat (length sessions).
Proof.
  induction sessions as [|s l IH]; intros streakDays currentDate;
    cbn [streakLoop length]; [lia|].
  destruct (_ =? _).
  - specialize (IH (streakDays + 1) (setDatePrevious zone currentDate)). lia.
  - destruct (_ <? _); [lia|].
    specialize (IH streakDays currentDate). lia.
Qed.

(** In a regular zone, the streak over sessions that all started [n] days
    before today or later counts at most the days from that day to today. *)
Lemma streak_bounded_by_floor filterNow streakNow period history (n : Z) :
  RegularZone zone ->
  0 <= n ->
  (forall s, s ∈ getFilteredSessions filterNow period history ->
             localDay zone streakNow - n <= localDay zone (startTime s)) ->
  streakDays (getStats zone filterNow streakNow period history) <= n + 1.
Proof.
  intros Hregular Hn Hfloor.
  destruct (getStats_streakRun zone Hregular filterNow streakNow period
              history) as (Hk & Hrun & _).
  set (k := streakDays _) in *.
  destruct (decide (k <= n + 1)) as [|Hbig]; [done|exfalso].
  destruct (Hrun (n + 1)) as (s & Hs & Hday); [lia|].
  specialize (Hfloor s Hs). lia.
Qed.

(** In a regular zone whose offsets differ by at most [m] days, a window of
    [days] days of 24 hours holds a streak of at most [days + m + 1]
    calendar days. *)
Lemma streak_bounded_by_window filterNow streakNow period history
    (days m : Z) :
  RegularZone zone ->
  (forall t1 t2, offsetAtUTC zone t1 - offsetAtUTC zone t2 <= m * msPerDay) ->
  localDay zone filterNow = localDay zone streakNow ->
  0 <= days + m ->
  (forall s, s ∈ getFilteredSessions filterNow period history ->
             filterNow - startTime s <= days * msPerDay) ->
  streakDays (getStats zone filterNow streakNow period history)
  <= days + m + 1.
Proof.
  intros Hregular Hoffsets Hday Hdays Hwindow.
  apply streak_bounded_by_floor; [done|done|].
  intros s Hs. specialize (Hwindow s Hs).
  pose proof (localDay_days_before filterNow days m Hoffsets) as Hback.
  assert (filterNow - days * msPerDay <= startTime s) as Hle by lia.
  apply (proj2 Hregular) in Hle. lia.
Qed.

End PeriodFacts.

(** The week view shows a subsequence of the month view, which shows a
    subsequence of the whole history; the view of every session is the
    history itself. *)
Theorem getFilteredSessions_nested (now : Z)
    (history : list BikeModeSession) :
  sublist (getFilteredSessions now week history)
          (getFilteredSessions now month history)
  /\ sublist (getFilteredSessions now month history) history
  /\ getFilteredSessions now all history = history.
Proof.
  unfold getFilteredSessions. split; [|split].
  - apply sublist_filter_impl. intros s Hweek.
    apply Is_true_true in Hweek. apply Is_true_true.
    apply inPeriod_week in Hweek. apply inPeriod_month.
    pose proof msPerDay_pos. lia.
  - apply sublist_filter.
  - apply filter_Forall_id, Forall_forall. by intros s _.
Qed.

(** In a zone in which every day starts at 0:00 and a later instant never
    falls on an earlier day, the streak is the length of the unbroken run of
    calendar days, ending today, on each of which a session of the selected
    period started: each of the counted days has a session, the day before
    them has none, and no other number has these two properties.  Three
    sessions on the three days ending today give 3. *)
Theorem streakDays_regular_zone (zone : TimeZone) (filterNow streakNow : Z)
    (period : Period) (history : list BikeModeSession) :
  RegularZone zone ->
  let sessions := getFilteredSessions filterNow period history in
  let today := localDay zone streakNow in
  let streak :=
    streakDays (getStats zone filterNow streakNow period history) in
  streakRun zone sessions today streak
  /\ (forall n, streakRun zone sessions today n -> streak = n)
  /\ (forall s1 s2 s3,
         sessions ≡ₚ [s1; s2; s3] ->
         localDay zone (startTime s1) = today ->
         localDay zone (startTime s2) = today - 1 ->
         localDay zone (startTime s3) = today - 2 ->
         streak = 3).
Proof.
  intros Hregular sessions today streak.
  pose proof (getStats_streakRun zone Hregular filterNow streakNow period
                history) as Hrun.
  fold sessions today streak in Hrun.
  assert (forall n, streakRun zone sessions today n -> streak = n)
    as Hunique by (intros n; by apply streakRun_unique).
  split; [exact Hrun|]. split; [exact Hunique|].
  intros s1 s2 s3 Hperm H1 H2 H3. apply Hunique.
  split; [lia|]. split.
  - intros i Hi.
    assert (i = 0 \/ i = 1 \/ i = 2) as [-> | [-> | ->]] by lia.
    + exists s1. split; [rewrite Hperm; apply list_elem_of_here|lia].
    + exists s2. split; [|done].
      rewrite Hperm. apply list_elem_of_further, list_elem_of_here.
    + exists s3. split; [|done].
      rewrite Hperm.
      apply list_elem_of_further, list_elem_of_further, list_elem_of_here.
  - intros (s & Hs & Hday). rewrite Hperm in Hs.
    apply elem_of_cons in Hs as [->|Hs]; [lia|].
    apply elem_of_cons in Hs as [->|Hs]; [lia|].
    apply list_elem_of_singleton in Hs as ->. lia.
Qed.

Lemma streakDays_regular_zone_witness :
  RegularZone newYork2026
  /\ streakRun newYork2026
       (getFilteredSessions newYorkSundayNight all
          [newYorkSaturday; newYorkSunday])
       (localDay newYork2026 newYorkSundayNight)
       (streakDays
          (getStats newYork2026 newYorkSundayNight newYorkSundayNight all
             [newYorkSaturday; newYorkSunday])).
Proof.
  split; [exact newYork2026_regular|].
  destruct (streakDays_regular_zone newYork2026 newYorkSundayNight
              newYorkSundayNight all [newYorkSaturday; newYorkSunday]
              newYork2026_regular) as [Hrun _].
  exact Hrun.
Defined.

(** The streak never exceeds the number of sessions of the selected period,
    and it is not negative. *)
Theorem streakDays_le_totalSessions (zone : TimeZone)
    (filterNow streakNow : Z) (period : Period)
    (history : list BikeModeSession) :
  0 <= streakDays (getStats zone filterNow streakNow period history)
    <= totalSessions (getStats zone filterNow streakNow period history).
Proof.
  rewrite streakDays_getStats.
  set (sessions := getFilteredSessions filterNow period history).
  pose proof (streakLoop_le_length zone
                (sort (fun a b => startTime b - startTime a) sessions)
                0 (setHoursZero zone streakNow)) as Hle.
  rewrite length_sort in Hle.
  unfold getStats. fold sessions.
  destruct (decide (length sessions = 0%nat)) as [Hempty|Hsome];
    cbn [totalSessions]; lia.
Qed.

(** The nine sessions of 7 to 15 March 2026 in New York all lie within
    168 hours of 0:30 of 15 March, the week of the clock change: the week
    view counts a streak of 9 days. *)
Example streak_new_york_short_week :
  streakDays (getStats newYork2026 newYorkSpringNight newYorkSpringNight week
                newYorkSpringWeek) = 9.
Proof. vm_compute. reflexivity. Qed.

(** The selected period caps the streak, however long the run of days in
    the whole history is.  In a regular zone, when the two clock readings
    of [getStats] fall on the same calendar day: if the offsets of the zone
    differ by at most a day, the week view shows a streak of at most 9 days
    and the month view one of at most 32; if the zone has one offset, at
    most 8 and 31. *)
Theorem streakDays_capped_by_period (zone : TimeZone)
    (filterNow streakNow : Z) (history : list BikeModeSession) :
  RegularZone zone ->
  localDay zone filterNow = localDay zone streakNow ->
  ((forall t1 t2, offsetAtUTC zone t1 - offsetAtUTC zone t2 <= msPerDay) ->
   streakDays (getStats zone filterNow streakNow week history) <= 9
   /\ streakDays (getStats zone filterNow streakNow month history) <= 32)
  /\ ((forall t1 t2, offsetAtUTC zone t1 = offsetAtUTC zone t2) ->
      streakDays (getStats zone filterNow streakNow week history) <= 8
      /\ streakDays (getStats zone filterNow streakNow month history) <= 31).
Proof.
  intros Hregular Hday.
  assert (forall s, s ∈ getFilteredSessions filterNow week history ->
                    filterNow - startTime s <= 7 * msPerDay) as Hweek.
  { intros s Hs. apply list_elem_of_filter in Hs as [Hin _].
    by apply Is_true_true, inPeriod_week in Hin. }
  assert (forall s, s ∈ getFilteredSessions filterNow month history ->
                    filterNow - startTime s <= 30 * msPerDay) as Hmonth.
  { intros s Hs. apply list_elem_of_filter in Hs as [Hin _].
    by apply Is_true_true, inPeriod_month in Hin. }
  split.
  - intros Hoffsets.
    assert (forall t1 t2,
               offsetAtUTC zone t1 - offsetAtUTC zone t2 <= 1 * msPerDay)
      as Hone by (intros t1 t2; specialize (Hoffsets t1 t2); lia).
    split.
    + by apply (streak_bounded_by_window zone filterNow streakNow week
                  history 7 1).
    + by apply (streak_bounded_by_window zone filterNow streakNow month
                  history 30 1).
  - intros Hoffsets.
    assert (forall t1 t2,
               offsetAtUTC zone t1 - offsetAtUTC zone t2 <= 0 * msPerDay)
      as Hnone by (intros t1 t2; specialize (Hoffsets t1 t2); lia).
    split.
    + by apply (streak_bounded_by_window zone filterNow streakNow week
                  history 7 0).
    + by apply (streak_bounded_by_window zone filterNow streakNow month
                  history 30 0).
Qed.

Lemma streakDays_capped_by_period_witness :
  streakDays (getStats newYork2026 newYorkSpringNight newYorkSpringNight week
                newYorkSpringWeek) <= 9.
Proof.
  destruct (streakDays_capped_by_period newYork2026 newYorkSpringNight
              newYorkSpringNight newYorkSpringWeek newYork2026_regular
              eq_refl) as [Hvaries _].
  apply Hvaries. intros t1 t2.
  unfold newYork2026, hour, msPerDay. cbn [offsetAtUTC].
  repeat match goal with
         | |- context [?a <? ?b] => destruct (Z.ltb_spec a b)
         end; lia.
Defined.

(** The achievements are a subsequence of the five declared ones, in their
    declared order; there is none exactly when the selected period holds no
    session, and otherwise the list starts with "First Session". *)
Theorem getAchievements_declared_order (zone : TimeZone)
    (filterNow streakNow : Z) (period : Period)
    (history : list BikeModeSession) :
  let achievements :=
    ProgressDisplay.getAchievements zone filterNow streakNow period history in
  sublist achievements
          [ProgressDisplay.firstSession; ProgressDisplay.dedicatedLearner;
           ProgressDisplay.verseMaster; ProgressDisplay.weekWarrior;
           ProgressDisplay.accuracyExpert]
  /\ (achievements = []
      <-> getFilteredSessions filterNow period history = [])
  /\ (getFilteredSessions filterNow period history ≠ [] ->
      head achievements = Some ProgressDisplay.firstSession).
Proof.
  intros achievements. unfold achievements, ProgressDisplay.getAchievements.
  set (stats := getStats zone filterNow streakNow period history).
  set (sessions := getFilteredSessions filterNow period history).
  assert (sublist (ProgressDisplay.achievementsOf stats)
            [ProgressDisplay.firstSession; ProgressDisplay.dedicatedLearner;
             ProgressDisplay.verseMaster; ProgressDisplay.weekWarrior;
             ProgressDisplay.accuracyExpert]) as Hsub.
  { unfold ProgressDisplay.achievementsOf, ProgressDisplay.pushIf.
    destruct (1 <=? _), (10 <=? _), (100 <=? _), (7 <=? _), (atLeast _ _);
      cbn [app];
      repeat first [apply sublist_nil | apply sublist_skip
                   | apply sublist_cons]. }
  assert (sessions = [] -> ProgressDisplay.achievementsOf stats = [])
    as Hnone.
  { intros Hnil. unfold stats, getStats. fold sessions. by rewrite Hnil. }
  assert (sessions ≠ [] ->
          head (ProgressDisplay.achievementsOf stats)
          = Some ProgressDisplay.firstSession) as Hfirst.
  { intros Hsome.
    assert (1 <= totalSessions stats) as Htotal.
    { unfold stats, getStats. fold sessions.
      destruct (decide (length sessions = 0%nat)) as [Hempty|_].
      - by apply nil_length_inv in Hempty.
      - cbn [totalSessions]. destruct sessions; [done|simpl; lia]. }
    unfold ProgressDisplay.achievementsOf, ProgressDisplay.pushIf.
    apply Z.leb_le in Htotal. rewrite Htotal.
    destruct (10 <=? _), (100 <=? _), (7 <=? _), (atLeast _ _); done. }
  split; [done|]. split; [|done]. split; [|done].
  intros Hnil. destruct (decide (sessions = [])) as [|Hsome]; [done|].
  specialize (Hfirst Hsome). rewrite Hnil in Hfirst. done.
Qed.

(** ** Durations *)

(** For a duration that is not negative, the screen shows its whole hours
    and the whole minutes, fewer than 60, of the rest; seconds are dropped,
    and the hours are left out when there is none. *)
Theorem formatDuration_parts (milliseconds : Z) :
  0 <= milliseconds ->
  exists hours minutes rest,
    milliseconds = hours * 3600000 + minutes * 60000 + rest
    /\ 0 <= hours /\ 0 <= minutes < 60 /\ 0 <= rest < 60000
    /\ ProgressDisplay.formatDuration milliseconds
       = if decide (hours > 0)
         then ofInt hours ++ lit "h " ++ ofInt minutes ++ lit "m"
         else ofInt minutes ++ lit "m".
Proof.
  intros Hms.
  exists (milliseconds / 3600000), (milliseconds mod 3600000 / 60000),
         (milliseconds mod 3600000 mod 60000).
  split; [|split; [|split; [|split]]].
  - Z.div_mod_to_equations. lia.
  - Z.div_mod_to_equations. lia.
  - Z.div_mod_to_equations. lia.
  - Z.div_mod_to_equations. lia.
  - unfold ProgressDisplay.formatDuration.
    change (1000 * 60 * 60) with 3600000. change (1000 * 60) with 60000.
    by rewrite Z.rem_mod_nonneg by lia.
Qed.

Lemma formatDuration_parts_witness :
  exists hours minutes rest,
    5430000 = hours * 3600000 + minutes * 60000 + rest
    /\ 0 <= hours /\ 0 <= minutes < 60 /\ 0 <= rest < 60000
    /\ ProgressDisplay.formatDuration 5430000
       = if decide (hours > 0)
         then ofInt hours ++ lit "h " ++ ofInt minutes ++ lit "m"
         else ofInt minutes ++ lit "m".
Proof.
  apply (formatDuration_parts 5430000). lia.
Defined.

(** From one hour on, the helper [formatDuration] and the one of the
    progress screen give the same text; below one minute the screen shows
    "0m" where the helper shows the seconds. *)
Theorem formatDuration_helpers_agree (milliseconds : Z) :
  (3600000 <= milliseconds ->
   Helpers.formatDuration milliseconds
   = ProgressDisplay.formatDuration milliseconds)
  /\ (0 <= milliseconds < 60000 ->
      ProgressDisplay.formatDuration milliseconds = lit "0m"
      /\ Helpers.formatDuration milliseconds
         = ofInt (milliseconds / 1000) ++ lit "s").
Proof.
  split.
  - intros Hms.
    unfold Helpers.formatDuration, ProgressDisplay.formatDuration.
    change (1000 * 60 * 60) with 3600000. change (1000 * 60) with 60000.
    assert (milliseconds / 1000 / 60 / 60 = milliseconds / 3600000) as ->
        by (Z.div_mod_to_equations; lia).
    assert (Z.rem (milliseconds / 1000 / 60) 60
            = Z.rem milliseconds 3600000 / 60000) as ->.
    { rewrite !Z.rem_mod_nonneg by (Z.div_mod_to_equations; lia).
      Z.div_mod_to_equations. lia. }
    destruct (decide (milliseconds / 3600000 > 0)) as [|Hzero]; [done|].
    exfalso. apply Hzero. Z.div_mod_to_equations. lia.
  - intros Hms.
    unfold Helpers.formatDuration, ProgressDisplay.formatDuration.
    change (1000 * 60 * 60) with 3600000. change (1000 * 60) with 60000.
    assert (milliseconds / 3600000 = 0) as ->
        by (Z.div_mod_to_equations; lia).
    assert (Z.rem milliseconds 3600000 / 60000 = 0) as ->.
    { rewrite Z.rem_mod_nonneg by lia. Z.div_mod_to_equations. lia. }
    assert (milliseconds / 1000 / 60 = 0) as ->
        by (Z.div_mod_to_equations; lia).
    split; reflexivity.
Qed.

Lemma formatDuration_helpers_agree_witness :
  Helpers.formatDuration 5430000 = ProgressDisplay.formatDuration 5430000.
Proof.
  apply (formatDuration_helpers_agree 5430000). lia.
Defined.

Example formatDuration_screen : ProgressDisplay.formatDuration 5430000
                                = lit "1h 30m".
Proof. vm_compute. reflexivity. Qed.

(** ** Helper functions *)



(** ** The edit distance of the helpers *)

Section Lev.

Import MatrixInvariants.

Implicit Types (a b : list N) (x y : N).

Lemma levenshtein_nil_r a : levenshtein a [] = length a.
Proof. by destruct a. Qed.

Lemma levenshtein_cons x a y b :
  levenshtein (x :: a) (y :: b)
  = Nat.min (Nat.min (S (levenshtein a (y :: b))) (S (levenshtein (x :: a) b)))
            (differ x y + levenshtein a b).
Proof. reflexivity. Qed.

Lemma levenshtein_snoc a : forall b x y,
  levenshtein (a ++ [x]) (b ++ [y])
  = Nat.min (Nat.min (S (levenshtein a (b ++ [y])))
                     (S (levenshtein (a ++ [x]) b)))
            (differ x y + levenshtein a b).
Proof.
  induction a as [|x' a IHa]; intros b x y.
  - induction b as [|y' b IHb].
    + reflexivity.
    + cbn [app] in *. rewrite !levenshtein_cons, IHb.
      change (levenshtein [] ?l) with (length l).
      rewrite ?length_app. cbn [length]. lia.
  - induction b as [|y' b IHb].
    + cbn [app] in *. rewrite !levenshtein_cons.
      specialize (IHa [] x y). cbn [app] in IHa. rewrite IHa.
      rewrite ?levenshtein_nil_r, ?length_app. cbn [length]. lia.
    + cbn [app] in *.
      rewrite (levenshtein_cons x' (a ++ [x]) y' (b ++ [y])).
      pose proof (IHa (y' :: b) x y) as IHa1. cbn [app] in IHa1.
      rewrite IHa1, IHb, (IHa b x y).
      rewrite (levenshtein_cons x' a y' (b ++ [y])).
      rewrite (levenshtein_cons x' (a ++ [x]) y' b).
      rewrite (levenshtein_cons x' a y' b).
      min_eq.
Qed.
End Lev.

Section Matrix.

Import Helpers MatrixInvariants.

Lemma setCell_wellFormed width height m j i v :
  wellFormed width height m -> wellFormed width height (setCell m j i v).
Proof.
  intros [Hh Hw]. unfold setCell.
  destruct (m !! j) as [row|] eqn:Hrow; [|done].
  split; [by rewrite length_insert|].
  apply Forall_insert; [done|]. rewrite length_insert.
  rewrite Forall_forall in Hw. apply Hw. by eapply list_elem_of_lookup_2.
Qed.

Lemma getCell_setCell width height m j i v j' i' :
  wellFormed width height m -> (j < height)%nat -> (i < width)%nat ->
  getCell (setCell m j i v) j' i'
  = if decide (j' = j /\ i' = i) then v else getCell m j' i'.
Proof.
  intros [Hh Hw] Hj Hi. unfold setCell, getCell.
  destruct (lookup_lt_is_Some_2 m j) as [row Hrow]; [lia|]. rewrite Hrow.
  assert (length row = width) as Hlen.
  { rewrite Forall_forall in Hw. apply Hw. by eapply list_elem_of_lookup_2. }
  destruct (decide (j' = j)) as [->|Hne].
  - rewrite list_lookup_insert_eq by lia. rewrite Hrow.
    destruct (decide (i' = i)) as [->|Hne'].
    + rewrite list_lookup_insert_eq by lia. by rewrite decide_True.
    + rewrite list_lookup_insert_ne by done. by rewrite decide_False by tauto.
  - rewrite list_lookup_insert_ne by done. by rewrite decide_False by tauto.
Qed.

Lemma fold_seq_invariant {S} (f : S -> nat -> S) (I : nat -> S -> Prop)
    (len : nat) : forall (start : nat) (s : S),
  I start s ->
  (forall k s, (start <= k < start + len)%nat -> I k s -> I (Datatypes.S k) (f s k)) ->
  I (start + len)%nat (fold_left f (seq start len) s).
Proof.
  induction len as [|len IH]; intros start s Hs Hstep; simpl.
  - by rewrite Nat.add_0_r.
  - rewrite <- Nat.add_succ_comm. apply IH.
    + apply Hstep; [lia|done].
    + intros k s' Hk. apply Hstep. lia.
Qed.

End Matrix.

Section Distance.

Import Helpers MatrixInvariants.

Variables str1 str2 : list N.

Local Abbreviation width := (S (length str1)).
Local Abbreviation height := (S (length str2)).
Local Abbreviation prefixDistance := (prefixDistance str1 str2).
Local Abbreviation rowsFilled := (rowsFilled str1 str2).

Lemma prefixDistance_row0 i : (i <= length str1)%nat -> prefixDistance 0 i = Z.of_nat i.
Proof.
  intros Hi. unfold prefixDistance. rewrite take_0, levenshtein_nil_r.
  rewrite length_take. lia.
Qed.

Lemma prefixDistance_col0 j : (j <= length str2)%nat -> prefixDistance j 0 = Z.of_nat j.
Proof.
  intros Hj. unfold prefixDistance. rewrite take_0. simpl.
  rewrite length_take. lia.
Qed.

Lemma prefixDistance_step j i :
  (1 <= j <= length str2)%nat -> (1 <= i <= length str1)%nat ->
  prefixDistance j i
  = Z.min (Z.min (prefixDistance j (i - 1) + 1) (prefixDistance (j - 1) i + 1))
          (prefixDistance (j - 1) (i - 1)
           + if decide (str1 !! (i - 1)%nat = str2 !! (j - 1)%nat) then 0 else 1).
Proof.
  intros Hj Hi. unfold prefixDistance.
  destruct (lookup_lt_is_Some_2 str1 (i - 1)) as [x Hx]; [lia|].
  destruct (lookup_lt_is_Some_2 str2 (j - 1)) as [y Hy]; [lia|].
  replace i with (Datatypes.S (i - 1)) at 1 by lia.
  replace j with (Datatypes.S (j - 1)) at 1 by lia.
  rewrite (take_S_r _ _ _ Hx), (take_S_r _ _ _ Hy), levenshtein_snoc.
  replace (take i str1) with (take (i - 1) str1 ++ [x])
    by (rewrite <- (take_S_r _ _ _ Hx); f_equal; lia).
  replace (take j str2) with (take (j - 1) str2 ++ [y])
    by (rewrite <- (take_S_r _ _ _ Hy); f_equal; lia).
  rewrite Hx, Hy. unfold differ.
  destruct (decide (x = y)) as [->|Hne].
  - rewrite decide_True by done. lia.
  - rewrite decide_False by congruence. lia.
Qed.

Lemma blank_wellFormed :
  wellFormed width height (replicate height (replicate width None)).
Proof.
  split; [by rewrite length_replicate|].
  apply Forall_replicate. by rewrite length_replicate.
Qed.

(** After the first loop: row 0 is filled. *)
Lemma firstRow_filled :
  let m := fold_left (fun matrix i => setCell matrix 0 i (Z.of_nat i))
                     (seq 0 width)
                     (replicate height (replicate width None)) in
  wellFormed width height m
  /\ forall i, (i < width)%nat -> getCell m 0 i = Z.of_nat i.
Proof.
  apply (fold_seq_invariant
           (fun matrix i => setCell matrix 0 i (Z.of_nat i))
           (fun k m => wellFormed width height m
                       /\ forall i, (i < k)%nat -> getCell m 0 i = Z.of_nat i)
           width 0%nat).
  - split; [apply blank_wellFormed|]. intros i Hi. lia.
  - intros k m Hk [Hwf Hrow]. split; [by apply setCell_wellFormed|].
    intros i Hi.
    rewrite (getCell_setCell width height) by (done || lia).
    destruct (decide _) as [[_ ->]|Hne]; [done|].
    apply Hrow. lia.
Qed.

(** After the second loop: column 0 is filled as well. *)
Lemma firstColumn_filled (m : Matrix) :
  wellFormed width height m ->
  (forall i, (i < width)%nat -> getCell m 0 i = Z.of_nat i) ->
  let m' := fold_left (fun matrix j => setCell matrix j 0 (Z.of_nat j))
                      (seq 0 height) m in
  wellFormed width height m'
  /\ (forall i, (i < width)%nat -> getCell m' 0 i = Z.of_nat i)
  /\ (forall j, (j < height)%nat -> getCell m' j 0 = Z.of_nat j).
Proof.
  intros Hwf Hrow.
  apply (fold_seq_invariant
           (fun matrix j => setCell matrix j 0 (Z.of_nat j))
           (fun k m' =>
              wellFormed width height m'
              /\ (forall i, (i < width)%nat -> getCell m' 0 i = Z.of_nat i)
              /\ (forall j, (j < k)%nat -> getCell m' j 0 = Z.of_nat j))
           height 0%nat).
  - split; [done|]. split; [done|]. intros j Hj. lia.
  - intros k m' Hk (Hwf' & Hrow' & Hcol').
    split; [by apply setCell_wellFormed|]. split.
    + intros i Hi.
      rewrite (getCell_setCell width height) by (done || lia).
      destruct (decide _) as [[<- ->]|Hne]; [done|]. by apply Hrow'.
    + intros j Hj.
      rewrite (getCell_setCell width height) by (done || lia).
      destruct (decide _) as [[-> _]|Hne]; [done|].
      apply Hcol'. lia.
Qed.

Lemma row_filled (j : nat) (m : Matrix) :
  (1 <= j < height)%nat ->
  rowsFilled j m ->
  rowsFilled (S j)
    (fold_left
       (fun matrix i =>
          let indicator :=
            if decide (str1 !! (i - 1)%nat = str2 !! (j - 1)%nat)
            then 0 else 1 in
          setCell matrix j i
            (Z.min (Z.min (getCell matrix j (i - 1) + 1)
                          (getCell matrix (j - 1) i + 1))
                   (getCell matrix (j - 1) (i - 1) + indicator)))
       (seq 1 (length str1)) m).
Proof.
  intros Hj Hrows.
  cut (rowsFilled j
         (fold_left
            (fun matrix i =>
               let indicator :=
                 if decide (str1 !! (i - 1)%nat = str2 !! (j - 1)%nat)
                 then 0 else 1 in
               setCell matrix j i
                 (Z.min (Z.min (getCell matrix j (i - 1) + 1)
                               (getCell matrix (j - 1) i + 1))
                        (getCell matrix (j - 1) (i - 1) + indicator)))
            (seq 1 (length str1)) m)
       /\ forall i, (i < 1 + length str1)%nat ->
                    getCell
                      (fold_left
                         (fun matrix i =>
                            let indicator :=
                              if decide (str1 !! (i - 1)%nat
                                         = str2 !! (j - 1)%nat)
                              then 0 else 1 in
                            setCell matrix j i
                              (Z.min (Z.min (getCell matrix j (i - 1) + 1)
                                            (getCell matrix (j - 1) i + 1))
                                     (getCell matrix (j - 1) (i - 1)
                                      + indicator)))
                         (seq 1 (length str1)) m) j i
                    = prefixDistance j i).
  { intros [(Hwf & Hdone & Hcol) Hrow]. split; [done|]. split; [|done].
    intros j' i Hj' Hh Hi.
    destruct (decide (j' = j)) as [->|Hne]; [apply Hrow; lia|].
    apply Hdone; [lia|done|done]. }
  apply (fold_seq_invariant _
           (fun c m' => rowsFilled j m'
                        /\ forall i, (i < c)%nat ->
                                     getCell m' j i = prefixDistance j i)
           (length str1) 1%nat).
  - split; [done|]. intros i Hi. replace i with 0%nat by lia.
    destruct Hrows as (_ & _ & Hcol). apply Hcol. lia.
  - intros c m' Hc [(Hwf & Hdone & Hcol) Hrow].
    assert (forall j' i',
               getCell
                 (setCell m' j c
                    (Z.min (Z.min (getCell m' j (c - 1) + 1)
                                  (getCell m' (j - 1) c + 1))
                           (getCell m' (j - 1) (c - 1)
                            + if decide (str1 !! (c - 1)%nat
                                         = str2 !! (j - 1)%nat)
                              then 0 else 1))) j' i'
               = if decide (j' = j /\ i' = c) then prefixDistance j c
                 else getCell m' j' i') as Hget.
    { intros j' i'.
      rewrite (getCell_setCell width height) by (done || lia).
      destruct (decide _); [|done].
      rewrite (prefixDistance_step j c) by lia.
      rewrite (Hrow (c - 1)%nat) by lia.
      rewrite (Hdone (j - 1)%nat c) by lia.
      rewrite (Hdone (j - 1)%nat (c - 1)%nat) by lia.
      done. }
    cbv zeta. split; [split; [by apply setCell_wellFormed|split]|].
    + intros j' i' Hj' Hh Hi'. rewrite Hget.
      rewrite decide_False by lia. by apply Hdone.
    + intros j' Hj'. rewrite Hget. rewrite decide_False by lia.
      by apply Hcol.
    + intros i' Hi'. rewrite Hget.
      destruct (decide (j = j /\ i' = c)) as [[_ ->]|Hne]; [done|].
      apply Hrow. lia.
Qed.

Lemma levenshteinDistance_prefixDistance :
  levenshteinDistance str1 str2
  = prefixDistance (length str2) (length str1).
Proof.
  unfold levenshteinDistance. rewrite !Nat.add_1_r.
  destruct firstRow_filled as [Hwf1 Hrow1].
  destruct (firstColumn_filled _ Hwf1 Hrow1) as (Hwf2 & Hrow2 & Hcol2).
  set (m2 := fold_left (fun matrix j => setCell matrix j 0 (Z.of_nat j))
                       (seq 0 height) _) in *.
  assert (rowsFilled 1 m2) as Hinit.
  { split; [done|]. split.
    - intros j i Hj _ Hi. replace j with 0%nat by lia.
      rewrite prefixDistance_row0 by lia. by apply Hrow2.
    - intros j Hj.
      rewrite prefixDistance_col0 by lia. by apply Hcol2. }
  pose proof (fold_seq_invariant _ rowsFilled (length str2) 1%nat m2 Hinit
                (fun k m Hk Hm => row_filled k m ltac:(lia) Hm))
    as Hfinal.
  unfold rowsFilled in Hfinal. destruct Hfinal as (_ & Hall & _).
  apply Hall; lia.
Qed.

Lemma prefixDistance_whole :
  prefixDistance (length str2) (length str1)
  = Z.of_nat (levenshtein str1 str2).
Proof. unfold MatrixInvariants.prefixDistance. by rewrite !take_ge by lia. Qed.

Lemma levenshteinDistance_levenshtein :
  levenshteinDistance str1 str2 = Z.of_nat (levenshtein str1 str2).
Proof.
  by rewrite levenshteinDistance_prefixDistance, prefixDistance_whole.
Qed.

End Distance.

(** The matrix computation of the helpers returns the Levenshtein distance
    of its two arguments: the least number of insertions, deletions and
    substitutions of one code unit that turn one string into the other. *)
Theorem levenshteinDistance_correct (str1 str2 : list N) :
  Helpers.levenshteinDistance str1 str2 = Z.of_nat (levenshtein str1 str2).
Proof.
  rewrite levenshteinDistance_prefixDistance.
  unfold MatrixInvariants.prefixDistance.
  by rewrite !take_ge by lia.
Qed.

Example levenshteinDistance_kitten :
  Helpers.levenshteinDistance (lit "kitten") (lit "sitting") = 3.
Proof. vm_compute. reflexivity. Qed.

(** ** The two similarity functions *)

Section TwoSimilarities.

Import MatrixInvariants.

Implicit Types (a b : list N) (x y : N).

Lemma levenshtein_refl a : levenshtein a a = 0%nat.
Proof.
  induction a as [|x a IH]; [done|].
  rewrite levenshtein_cons, IH. unfold differ. rewrite decide_True by done.
  lia.
Qed.

Lemma positionalDistance_shift x a y b (n : nat) : forall k : nat,
  length (filter (fun i => (x :: a) !! i ≠ (y :: b) !! i) (seq (S k) n))
  = length (filter (fun i => a !! i ≠ b !! i) (seq k n)).
Proof.
  induction n as [|n IH]; intros k; [done|]. cbn [seq].
  destruct (decide (a !! k = b !! k)) as [Heq|Hne].
  - rewrite !filter_cons_False by (simpl; tauto). apply IH.
  - rewrite !filter_cons_True by done. cbn [length]. by rewrite IH.
Qed.

Lemma positionalDistance_cons x a y b :
  positionalDistance (x :: a) (y :: b)
  = (differ x y + positionalDistance a b)%nat.
Proof.
  unfold positionalDistance. cbn [length]. rewrite <- Nat.succ_max_distr.
  cbn [seq]. unfold differ.
  destruct (decide (x = y)) as [->|Hne].
  - rewrite filter_cons_False by (simpl; tauto).
    by rewrite positionalDistance_shift.
  - rewrite filter_cons_True by (simpl; congruence). cbn [length].
    by rewrite positionalDistance_shift.
Qed.

Lemma positionalDistance_nil_l b : positionalDistance [] b = length b.
Proof.
  unfold positionalDistance.
  pose proof (filter_mismatch_tail [] b) as Htail. cbv zeta in Htail.
  cbn [length] in *. rewrite Nat.min_0_l, Nat.max_0_l, Nat.sub_0_r in Htail.
  rewrite Nat.max_0_l, Htail. apply length_seq.
Qed.

Lemma positionalDistance_nil_r a : positionalDistance a [] = length a.
Proof.
  unfold positionalDistance.
  pose proof (filter_mismatch_tail a []) as Htail. cbv zeta in Htail.
  cbn [length] in *. rewrite Nat.min_0_r, Nat.max_0_r, Nat.sub_0_r in Htail.
  rewrite Nat.max_0_r, Htail. apply length_seq.
Qed.

(** Substituting at every position where the strings differ, and inserting
    or deleting the rest of the longer one, is one way of editing. *)
Lemma levenshtein_le_positionalDistance a : forall b,
  (levenshtein a b <= positionalDistance a b)%nat.
Proof.
  induction a as [|x a IH]; intros b.
  - by rewrite positionalDistance_nil_l.
  - destruct b as [|y b].
    + by rewrite levenshtein_nil_r, positionalDistance_nil_r.
    + rewrite levenshtein_cons, positionalDistance_cons.
      specialize (IH b). lia.
Qed.

Lemma positionalDistance_le_max a b :
  (positionalDistance a b <= Nat.max (length a) (length b))%nat.
Proof.
  unfold positionalDistance.
  etransitivity; [apply length_filter|]. by rewrite length_seq.
Qed.

End TwoSimilarities.

(** Whatever [toLowerCase] does, the similarity of the helpers is a rational
    between 0 and 1. *)
Theorem helper_calculateSimilarity_range
    (toLowerCase : list N -> list N) (str1 str2 : list N) :
  (0 <= Helpers.calculateSimilarity toLowerCase str1 str2 <= 1)%Q.
Proof.
  unfold Helpers.calculateSimilarity.
  destruct (decide (str1 = str2)); [split; discriminate|].
  set (clean1 := toLowerCase _). set (clean2 := toLowerCase _).
  destruct (decide (clean1 = clean2)); [split; discriminate|].
  destruct (decide (Nat.max (length clean1) (length clean2) = 0%nat))
    as [|Hmax]; [split; discriminate|].
  rewrite levenshteinDistance_levenshtein.
  pose proof (levenshtein_le_positionalDistance clean1 clean2) as Hle.
  pose proof (positionalDistance_le_max clean1 clean2) as Hle'.
  set (M := Nat.max (length clean1) (length clean2)) in *.
  set (d := levenshtein clean1 clean2) in *.
  assert (0 < inject_Z (Z.of_nat M))%Q as HM
      by (rewrite <- (Zlt_Qlt 0); lia).
  assert (0 <= inject_Z (Z.of_nat d) / inject_Z (Z.of_nat M) <= 1)%Q
    as [Hlo Hhi].
  { split.
    - apply Qle_shift_div_l; [done|]. rewrite Qmult_0_l.
      rewrite <- (Zle_Qle 0). lia.
    - apply Qle_shift_div_r; [done|]. rewrite Qmult_1_l.
      rewrite <- Zle_Qle. lia. }
  split; lra.
Qed.

(** The two measures of difference, both integers: the distance that the
    helper computes between two strings never exceeds the number of indices
    that the validator does not count as matches, the longer length less
    [matches]. *)
Theorem levenshteinDistance_le_mismatches (clean1 clean2 : list N) :
  Helpers.levenshteinDistance clean1 clean2
  <= Z.of_nat (Nat.max (length clean1) (length clean2))
     - countMatches clean1 clean2
         (Nat.min (length clean1) (length clean2)).
Proof.
  rewrite countMatches_positionalDistance, levenshteinDistance_levenshtein.
  pose proof (levenshtein_le_positionalDistance clean1 clean2). lia.
Qed.

Example levenshteinDistance_below_mismatches :
  Helpers.levenshteinDistance [0x628; 0x633]%N [0x633]%N = 1
  /\ countMatches [0x628; 0x633]%N [0x633]%N 1 = 0.
Proof. vm_compute. done. Qed.

(** ** Keys of the verse map *)

Section VerseKeys.

Lemma pretty_N_go_no_colon (x : N) : forall s : string,
  Forall (fun c => c ≠ ":"%char) (String.list_ascii_of_string s) ->
  Forall (fun c => c ≠ ":"%char)
         (String.list_ascii_of_string (pretty_N_go x s)).
Proof.
  induction (N.lt_wf_0 x) as [x _ IH]; intros s Hs.
  assert (x = 0 \/ 0 < x)%N as [->|Hpos] by lia.
  - by rewrite pretty_N_go_0.
  - rewrite pretty_N_go_step by done. apply IH; [by apply N.div_lt|].
    cbn [String.list_ascii_of_string]. constructor; [|done].
    unfold pretty_N_char. by repeat case_match.
Qed.

Lemma pretty_Z_no_colon (z : Z) :
  Forall (fun c => c ≠ ":"%char) (String.list_ascii_of_string (pretty z)).
Proof.
  assert (forall p : positive,
             Forall (fun c => c ≠ ":"%char)
                    (String.list_ascii_of_string (pretty (Npos p)))) as Hpos.
  { intros p. unfold pretty, pretty_N. rewrite decide_False by done.
    apply pretty_N_go_no_colon. constructor. }
  destruct z as [|p|p]; unfold pretty, pretty_Z.
  - repeat constructor. discriminate.
  - apply Hpos.
  - cbn [String.append String.list_ascii_of_string].
    constructor; [discriminate|apply Hpos].
Qed.

Lemma ofInt_no_colon (z : Z) : 58%N ∉ ofInt z.
Proof.
  unfold ofInt, lit. intros Hin.
  apply list_elem_of_fmap in Hin as (c & Hc & Hin).
  pose proof (pretty_Z_no_colon z) as Hall.
  rewrite Forall_forall in Hall. apply (Hall c Hin).
  rewrite <- (ascii_N_embedding c), <- Hc. reflexivity.
Qed.

Lemma ofInt_inj (z z' : Z) : ofInt z = ofInt z' -> z = z'.
Proof.
  unfold ofInt, lit. intros Heq.
  apply (inj pretty).
  rewrite <- (String.string_of_list_ascii_of_string (pretty z)),
          <- (String.string_of_list_ascii_of_string (pretty z')).
  f_equal. revert Heq.
  generalize (String.list_ascii_of_string (pretty z)),
             (String.list_ascii_of_string (pretty z')).
  intros l; induction l as [|c l IH]; intros [|c' l'] Heq;
    try discriminate; [done|].
  injection Heq as Hc Hl. f_equal; [|by apply IH].
  by rewrite <- (ascii_N_embedding c), <- (ascii_N_embedding c'), Hc.
Qed.

Lemma split_at_separator {A} (sep : A) (l1 : list A) : forall l1' l2 l2',
  sep ∉ l1 -> sep ∉ l1' ->
  l1 ++ sep :: l2 = l1' ++ sep :: l2' -> l1 = l1' /\ l2 = l2'.
Proof.
  induction l1 as [|x l1 IH]; intros [|x' l1'] l2 l2' H1 H1' Heq;
    simpl in Heq.
  - by injection Heq.
  - injection Heq as -> _. exfalso. apply H1'. apply list_elem_of_here.
  - injection Heq as -> _. exfalso. apply H1. apply list_elem_of_here.
  - injection Heq as -> Heq.
    apply not_elem_of_cons in H1 as [_ H1].
    apply not_elem_of_cons in H1' as [_ H1'].
    destruct (IH _ _ _ H1 H1' Heq) as [-> ->]. done.
Qed.

End VerseKeys.

(** Two references have the same key only when they are the same reference,
    so a verse stored under the key of one reference is found by [getVerse]
    at that reference and changes the lookup of no other. *)
Theorem verseKey_inj (surahNumber verseNumber surahNumber' verseNumber' : Z) :
  (verseKey surahNumber verseNumber = verseKey surahNumber' verseNumber'
   -> surahNumber = surahNumber' /\ verseNumber = verseNumber')
  /\ forall (this : QuranDatabaseClass) (verse : VerseInfo),
       getVerse {| verses := <[verseKey surahNumber verseNumber := verse]>
                               (verses this) |}
                surahNumber' verseNumber'
       = if decide (surahNumber' = surahNumber /\ verseNumber' = verseNumber)
         then Some verse
         else getVerse this surahNumber' verseNumber'.
Proof.
  assert (verseKey surahNumber verseNumber
          = verseKey surahNumber' verseNumber'
          -> surahNumber = surahNumber' /\ verseNumber = verseNumber')
    as Hinj.
  { unfold verseKey. change (lit ":") with [58%N]. cbn [app]. intros Heq.
    apply split_at_separator in Heq as [Hs Hv];
      [|apply ofInt_no_colon|apply ofInt_no_colon].
    split; by apply ofInt_inj. }
  split; [done|]. intros this verse. unfold getVerse. cbn [verses].
  destruct (decide (surahNumber' = surahNumber
                    /\ verseNumber' = verseNumber)) as [[-> ->]|Hne].
  - by rewrite lookup_insert_eq.
  - rewrite lookup_insert_ne; [done|].
    intros Heq. apply Hne. apply Hinj in Heq as [-> ->]. done.
Qed.

Lemma verseKey_inj_witness :
  getVerse {| verses := <[verseKey 1 11 := verse_1_1]> (verses db) |} 11 1
  = getVerse db 11 1.
Proof.
  destruct (verseKey_inj 1 11 11 1) as [_ Hget].
  rewrite (Hget db verse_1_1). rewrite decide_False by lia. reflexivity.
Defined.
